(** * scrumlord: the upkeep script (upkeep.py)

    A shallow embedding of [upkeep.py] and of the parts of Python's
    [datetime], [re] and [str] that it calls (Part I), the vocabulary in
    which its properties are stated (Part II), and the properties of the
    workday calendar, the title codec, the reconciler and the lifecycle
    actions (Part III). *)

From Stdlib Require Import ZArith Lia Ascii String DecimalString.
From stdpp Require Import base option list strings gmap sorting.
From Equations Require Import Equations.

Local Open Scope Z_scope.

(** * Part I: the program and the library calls it makes *)

(** ** Exceptions and results *)

(** The two exceptions that the modelled code can raise: [ValueError] from
    [datetime.date(y, m, d)] and [OverflowError] from date and timedelta
    arithmetic. *)
Inductive exn : Type :=
| ValueError
| OverflowError.

Inductive result (A : Type) : Type :=
| Ok (a : A)
| Raise (e : exn).
Arguments Ok {A} a.
Arguments Raise {A} e.

Definition rbind {A B : Type} (r : result A) (k : A -> result B) : result B :=
  match r with
  | Ok a => k a
  | Raise e => Raise e
  end.

(** ** Python's [datetime.date]

  A [date] is modelled by its proleptic Gregorian ordinal
  ([date.toordinal()]): 1 is 0001-01-01 and [_MAXORDINAL] is 9999-12-31.
  Comparison, subtraction, adding a [timedelta] and [weekday()] are then
  arithmetic on the ordinal; the constructor [datetime.date(y, m, d)] and
  [isoformat()] go through the conversions of CPython's [_pydatetime]. *)
Module datetime.

Abbreviation date := Z (only parsing).

Definition MINYEAR : Z := 1.
Definition MAXYEAR : Z := 9999.
Definition _MAXORDINAL : Z := 3652059.

Definition _DI400Y : Z := 146097.
Definition _DI100Y : Z := 36524.
Definition _DI4Y : Z := 1461.

Definition _is_leap (year : Z) : bool :=
  (year mod 4 =? 0) && (negb (year mod 100 =? 0) || (year mod 400 =? 0)).

Definition _days_before_year (year : Z) : Z :=
  let y := year - 1 in
  y * 365 + y / 4 - y / 100 + y / 400.

Definition _DAYS_IN_MONTH (month : Z) : Z :=
  match month with
  | 1 => 31 | 2 => 28 | 3 => 31 | 4 => 30 | 5 => 31 | 6 => 30
  | 7 => 31 | 8 => 31 | 9 => 30 | 10 => 31 | 11 => 30 | 12 => 31
  | _ => -1
  end.

Definition _DAYS_BEFORE_MONTH (month : Z) : Z :=
  match month with
  | 1 => 0 | 2 => 31 | 3 => 59 | 4 => 90 | 5 => 120 | 6 => 151
  | 7 => 181 | 8 => 212 | 9 => 243 | 10 => 273 | 11 => 304 | 12 => 334
  | _ => -1
  end.

Definition _days_in_month (year month : Z) : Z :=
  if (month =? 2) && _is_leap year then 29 else _DAYS_IN_MONTH month.

Definition _days_before_month (year month : Z) : Z :=
  _DAYS_BEFORE_MONTH month + (if (month >? 2) && _is_leap year then 1 else 0).

Definition _ymd2ord (year month day : Z) : Z :=
  _days_before_year year + _days_before_month year month + day.

Definition _ord2ymd (n : Z) : Z * Z * Z :=
  let n := n - 1 in
  let n400 := n / _DI400Y in
  let n := n mod _DI400Y in
  let year := n400 * 400 + 1 in
  let n100 := n / _DI100Y in
  let n := n mod _DI100Y in
  let n4 := n / _DI4Y in
  let n := n mod _DI4Y in
  let n1 := n / 365 in
  let n := n mod 365 in
  let year := year + (n100 * 100 + n4 * 4 + n1) in
  if (n1 =? 4) || (n100 =? 4) then (year - 1, 12, 31)
  else
    let leapyear := (n1 =? 3) && (negb (n4 =? 24) || (n100 =? 3)) in
    let month := Z.shiftr (n + 50) 5 in
    let preceding :=
      _DAYS_BEFORE_MONTH month + (if (month >? 2) && leapyear then 1 else 0) in
    let '(month, preceding) :=
      if preceding >? n then
        (month - 1,
         preceding - (_DAYS_IN_MONTH (month - 1)
                      + (if (month - 1 =? 2) && leapyear then 1 else 0)))
      else (month, preceding) in
    (year, month, n - preceding + 1).

(** [_check_date_fields]: the three tests whose failure is a [ValueError]. *)
Definition _check_date_fields (year month day : Z) : bool :=
  (MINYEAR <=? year) && (year <=? MAXYEAR)
  && (1 <=? month) && (month <=? 12)
  && (1 <=? day) && (day <=? _days_in_month year month).

(** [datetime.date(year, month, day)]. *)
Definition mkdate (year month day : Z) : result date :=
  if _check_date_fields year month day
  then Ok (_ymd2ord year month day)
  else Raise ValueError.

(** The ordinals that are dates: [date.min .. date.max]. *)
Definition is_date (d : date) : Prop := 1 <= d <= _MAXORDINAL.

(** [date.fromordinal(n)], as [date.__add__] uses it. *)
Definition fromordinal (n : Z) : result date :=
  if (1 <=? n) && (n <=? _MAXORDINAL) then Ok n else Raise OverflowError.

(** [datetime.timedelta(days=n)], kept as its number of days. *)
Definition timedelta (days : Z) : result Z :=
  if (-999999999 <=? days) && (days <=? 999999999)
  then Ok days else Raise OverflowError.

(** [date + timedelta(days=n)]. *)
Definition add_days (d : date) (n : Z) : result date :=
  fromordinal (d + n).

(** [date.weekday()]: Monday is 0 and Sunday is 6. *)
Definition weekday (d : date) : Z := (d + 6) mod 7.

Definition ymd (d : date) : Z * Z * Z := _ord2ymd d.

End datetime.

(** ** Python's [str]

  A [str] is a [string]; its characters are the code points below 256. *)
Module pystr.

Definition code (c : ascii) : Z := Z.of_N (N_of_ascii c).

(** [str.isspace] on one character. *)
Definition isspace (c : ascii) : bool :=
  let n := code c in
  ((9 <=? n) && (n <=? 13)) || ((28 <=? n) && (n <=? 32))
  || (n =? 133) || (n =? 160).

Fixpoint lstrip (s : string) : string :=
  match s with
  | String c s' => if isspace c then lstrip s' else s
  | EmptyString => EmptyString
  end.

Fixpoint rstrip (s : string) : string :=
  match s with
  | String c s' =>
      match rstrip s' with
      | EmptyString => if isspace c then EmptyString else String c EmptyString
      | r => String c r
      end
  | EmptyString => EmptyString
  end.

(** [s.strip()] *)
Definition strip (s : string) : string := rstrip (lstrip s).

(** [s.startswith(p)] *)
Definition startswith (s p : string) : bool := String.prefix p s.

(** [s.endswith(p)] *)
Definition endswith (s p : string) : bool :=
  String.prefix (String.rev p) (String.rev s).

(** [s.replace(old, new)] for a non-empty [old]: the occurrences of [old]
    are replaced from left to right and do not overlap. [skip] counts the
    characters of a replaced occurrence that are still to be dropped. *)
Fixpoint replace_from (old new : string) (skip : nat) (s : string) : string :=
  match s with
  | EmptyString => EmptyString
  | String c s' =>
      match skip with
      | S k => replace_from old new k s'
      | O =>
          if String.prefix old s
          then new +:+ replace_from old new (pred (String.length old)) s'
          else String c (replace_from old new O s')
      end
  end.

Definition replace (s old new : string) : string := replace_from old new O s.

(** [[0-9]] *)
Definition isdigit (c : ascii) : bool := (48 <=? code c) && (code c <=? 57).

(** [int(s)] on a string of decimal digits. *)
Fixpoint int_from (acc : Z) (s : string) : Z :=
  match s with
  | EmptyString => acc
  | String c s' => int_from (10 * acc + (code c - 48)) s'
  end.

Definition int (s : string) : Z := int_from 0 s.

(** [str(n)] for [0 <= n]. *)
Definition decimal (n : Z) : string :=
  DecimalString.NilZero.string_of_uint (N.to_uint (Z.to_N n)).

Fixpoint zeros (k : nat) : string :=
  match k with
  | O => EmptyString
  | S k' => String "0" (zeros k')
  end.

(** ["%0<width>d" % n] for [0 <= n]. *)
Definition format_0d (width : nat) (n : Z) : string :=
  let s := decimal n in
  zeros (width - String.length s) +:+ s.

End pystr.

(** ** The regular expression of [issue_title_to_date]

  [re.compile(r"([0-9]{4})-([0-9]{2})-([0-9]{2}):").match(title)]: the
  pattern has no alternative and no variable repetition, so matching at
  the start of the title is a left-to-right scan. *)
Module re.

(** [[0-9]{n}] at the start of [s]: the digits and what follows them. *)
Fixpoint digits (n : nat) (s : string) : option (string * string) :=
  match n with
  | O => Some (EmptyString, s)
  | S n' =>
      match s with
      | String c s' =>
          if pystr.isdigit c
          then '(ds, rest) ← digits n' s'; Some (String c ds, rest)
          else None
      | EmptyString => None
      end
  end.

(** A literal character at the start of [s]: what follows it. *)
Definition literal (c : ascii) (s : string) : option string :=
  match s with
  | String c' s' => if Ascii.eqb c c' then Some s' else None
  | EmptyString => None
  end.

(** [pattern.match(title)]: the three groups, or [None]. *)
Definition pattern_match (title : string) : option (string * string * string) :=
  '(y, s) ← digits 4 title;
  s ← literal "-" s;
  '(m, s) ← digits 2 s;
  s ← literal "-" s;
  '(d, s) ← digits 2 s;
  _ ← literal ":" s;
  Some (y, m, d).

End re.

(** ** Title codec *)

(** [issue_title_to_date(title)]: [Ok None] is Python's [None], returned
    when the pattern does not match. *)
Definition issue_title_to_date (title : string) : result (option datetime.date) :=
  match re.pattern_match title with
  | Some (y, m, d) =>
      rbind (datetime.mkdate (pystr.int y) (pystr.int m) (pystr.int d))
            (fun date => Ok (Some date))
  | None => Ok None
  end.

(** [str(date)], that is [date.isoformat()]: ["%04d-%02d-%02d"]. *)
Definition isoformat (d : datetime.date) : string :=
  let '(y, m, dd) := datetime.ymd d in
  pystr.format_0d 4 y +:+ "-" +:+ pystr.format_0d 2 m +:+ "-" +:+ pystr.format_0d 2 dd.

Definition day_name (wd : Z) : string :=
  match wd with
  | 0 => "Monday" | 1 => "Tuesday" | 2 => "Wednesday" | 3 => "Thursday"
  | 4 => "Friday" | 5 => "Saturday" | _ => "Sunday"
  end.

Definition month_name (m : Z) : string :=
  match m with
  | 1 => "January" | 2 => "February" | 3 => "March" | 4 => "April"
  | 5 => "May" | 6 => "June" | 7 => "July" | 8 => "August"
  | 9 => "September" | 10 => "October" | 11 => "November" | _ => "December"
  end.

(** [f"{date:%A, %B %-d, %Y}"] *)
Definition strftime_long (d : datetime.date) : string :=
  let '(y, m, dd) := datetime.ymd d in
  day_name (datetime.weekday d) +:+ ", " +:+ month_name m +:+ " " +:+ pystr.decimal dd
  +:+ ", " +:+ pystr.decimal y.

(** The title that [create_scrum_issue] gives the issue of [date]. *)
Definition scrum_title (d : datetime.date) : string :=
  isoformat d +:+ ": e-scrum for " +:+ strftime_long d.

Definition scrum_body : string :=
  "Please be sure to include:" +:+ String "010" "  - What you worked on yesterday."
  +:+ String "010" "  - What you plan on working on today."
  +:+ String "010" "  - Any blockers.".

(** ** The issue tracker

    The tracker is outside the program: a run is described by the sequence
    of operations it requests, in order. Whether a request fails is the
    tracker's choice; [tracker_fails] gives it from the requests made so far,
    the failing one included. The logger's level is [ERROR]: the calls of
    [log.info] leave nothing, those of [log.error] are part of the run. *)

Record Issue : Type := {
  number : Z;
  title : string;
}.

Inductive event : Type :=
| EditClosed (issue : Issue)            (* issue.edit(state="closed") *)
| CreateIssue (title body : string)     (* repository.create_issue(...) *)
| LogError (msg : string).              (* log.error(msg, exc_info=True) *)

(** A step of the script: from the operations so far to the operations after
    it and its result. *)
Definition prog (A : Type) : Type := list event -> list event * result A.

Definition ret {A : Type} (a : A) : prog A := fun tr => (tr, Ok a).

Definition bind {A B : Type} (m : prog A) (k : A -> prog B) : prog B :=
  fun tr =>
    match m tr with
    | (tr', Ok a) => k a tr'
    | (tr', Raise e) => (tr', Raise e)
    end.

Definition lift {A : Type} (r : result A) : prog A := fun tr => (tr, r).

#[global] Instance prog_ret : MRet prog := @ret.
#[global] Instance prog_bind : MBind prog := fun A B k m => bind m k.

(** [for x in l: body(x)] *)
Fixpoint for_each {A : Type} (l : list A) (body : A -> prog unit) : prog unit :=
  match l with
  | [] => ret tt
  | x :: l' => bind (body x) (fun _ => for_each l' body)
  end.

(** A generator run to its end: the values yielded, and the exception that
    ended it if one did. *)
Definition generated (A : Type) : Type := (list A * option exn)%type.

Definition yield {A : Type} (a : A) (g : generated A) : generated A :=
  (a :: fst g, snd g).

(** [set(g)] and [list(g)] raise what the generator raises. *)
Definition consume {A : Type} (g : generated A) : result (list A) :=
  match snd g with
  | None => Ok (fst g)
  | Some e => Raise e
  end.

Definition inspect {A : Type} (a : A) : {b : A | a = b} := exist _ a eq_refl.

(** [sorted(s)] of a set of dates. *)
Definition sorted (s : gset Z) : list datetime.date := merge_sort Z.le (elements s).

(** ** upkeep.py *)

Section upkeep.

(** [get_today()]: the day of the run. *)
Variable today : datetime.date.

(** [PA_HOLIDAYS]: the name that the [holidays] package gives a date of
    the jurisdiction's calendar, if it has one. *)
Variable PA_HOLIDAYS : datetime.date -> option string.

(** The lines of [holidays.txt], as [readlines()] returns them. *)
Variable holidays_txt : list string.

(** The tracker's failures. *)
Variable tracker_fails : list event -> bool.

(** A request to the tracker inside [try: ... except Exception:] with
    [log.error(msg, exc_info=True)] as the handler. *)
Definition request_or_log (op : event) (msg : string) : prog unit :=
  fun tr =>
    let tr' := tr ++ [op] in
    if tracker_fails tr' then (tr' ++ [LogError msg], Ok tt) else (tr', Ok tt).

Definition get_today : datetime.date := today.

Definition get_holidays : gset string :=
  let lines := map pystr.strip holidays_txt in
  list_to_set
    (filter (fun l => l <> EmptyString /\ pystr.startswith l "#" = false) lines).

(** [holidays.WEEKEND]: the constant [(SAT, SUN)] of the [holidays]
    package, which numbers the days as [date.weekday()] does, from Monday
    at 0. *)
Definition SAT : Z := 5.
Definition SUN : Z := 6.
Definition WEEKEND : list Z := [SAT; SUN].

Definition is_holiday (date : datetime.date) : bool :=
  bool_decide
    (pystr.replace (default EmptyString (PA_HOLIDAYS date)) " (Observed)" ""
     ∈ get_holidays).

Definition is_workday (date : datetime.date) : bool :=
  negb (bool_decide (datetime.weekday date ∈ WEEKEND)) && negb (is_holiday date).

(** The [while] loop of [get_upcoming_workdays], entered with the current
    [date] and [i]. It ends: each turn moves [date] one day closer to
    [date.max], beyond which the addition raises [OverflowError]. *)
Equations? upcoming_loop (date i workdays_ahead : Z) : generated Z
  by wf (Z.to_nat (datetime._MAXORDINAL - date)) lt :=
  upcoming_loop date i workdays_ahead with (i <? workdays_ahead) := {
    | false => ([], None)
    | true with inspect (datetime.add_days date 1) := {
        | exist _ (Raise e) _ => ([], Some e)
        | exist _ (Ok date') Hadd =>
            if is_workday date'
            then yield date' (upcoming_loop date' (i + 1) workdays_ahead)
            else upcoming_loop date' i workdays_ahead } }.
Proof.
  all: unfold datetime.add_days, datetime.fromordinal in Hadd;
    destruct (_ && _) eqn:E in Hadd; [|discriminate];
    injection Hadd as <-; apply andb_prop in E as [_ ?%Z.leb_le];
    unfold datetime._MAXORDINAL in *; lia.
Qed.

Definition get_upcoming_workdays (workdays_ahead : Z) : generated Z :=
  let date := get_today in
  let first := if is_workday date then [date] else [] in
  let rest := upcoming_loop date 0 workdays_ahead in
  (first ++ fst rest, snd rest).

(** [{issue_title_to_date(issue.title) for issue in issues}], evaluated
    from left to right. *)
Fixpoint titles_to_dates (issues : list Issue) : result (list (option datetime.date)) :=
  match issues with
  | [] => Ok []
  | issue :: issues' =>
      rbind (issue_title_to_date (title issue)) (fun d =>
      rbind (titles_to_dates issues') (fun ds => Ok (d :: ds)))
  end.

Definition get_future_dates_without_issues
    (issues : list Issue) (workdays_ahead : Z) : result (list datetime.date) :=
  rbind (consume (get_upcoming_workdays workdays_ahead)) (fun upcoming =>
  let future_dates : gset Z := list_to_set upcoming in
  rbind (titles_to_dates issues) (fun ds =>
  let taken : gset (option Z) := list_to_set ds in
  let future_dates := filter (fun d => Some d ∉ taken) future_dates in
  Ok (sorted future_dates))).

Definition close_old_issues (issues : list Issue) (lifespan : Z) : prog unit :=
  lifespan ← lift (datetime.timedelta lifespan);
  let today := get_today in
  for_each issues (fun issue =>
    date ← lift (issue_title_to_date (title issue));
    match date with
    | None => ret tt
    | Some date =>
        if today - date >? lifespan
        then request_or_log (EditClosed issue) "Closing issue failed:"
        else ret tt
    end).

Definition create_scrum_issue (date : datetime.date) : prog unit :=
  let body := scrum_body in
  let title := scrum_title date in
  request_or_log (CreateIssue title body) "Creating issue failed:".

(** The script's body, after the command line is parsed and the open
    issues are fetched. *)
Definition main (lifespan workdays_ahead : Z) (issues : list Issue) : prog unit :=
  close_old_issues issues lifespan;;
  dates ← lift (get_future_dates_without_issues issues workdays_ahead);
  for_each dates create_scrum_issue.

End upkeep.

(** * Part II: the vocabulary of the properties *)

(** ** Calendar *)

Section CalendarVocabulary.

Import datetime.

Fixpoint all_from (n : nat) (r : Z) (f : Z -> bool) : bool :=
  match n with
  | O => true
  | S n' => f r && all_from n' (r + 1) f
  end.

(** The tail of [_ord2ymd]: month and day from the day of the year. *)
Definition month_day (leapyear : bool) (n : Z) : Z * Z :=
  let month := Z.shiftr (n + 50) 5 in
  let preceding :=
    _DAYS_BEFORE_MONTH month + (if (month >? 2) && leapyear then 1 else 0) in
  let '(month, preceding) :=
    if preceding >? n then
      (month - 1,
       preceding - (_DAYS_IN_MONTH (month - 1)
                    + (if (month - 1 =? 2) && leapyear then 1 else 0)))
    else (month, preceding) in
  (month, n - preceding + 1).

Definition month_day_ok (leapyear : bool) (n : Z) : bool :=
  let '(m, d) := month_day leapyear n in
  (1 <=? m) && (m <=? 12) && (1 <=? d)
  && (d <=? (if (m =? 2) && leapyear then 29 else _DAYS_IN_MONTH m))
  && (_DAYS_BEFORE_MONTH m + (if (m >? 2) && leapyear then 1 else 0) + d =? n + 1).

Definition month_day_inv_ok (leapyear : bool) (m d : Z) : bool :=
  let dim := if (m =? 2) && leapyear then 29 else _DAYS_IN_MONTH m in
  let doy := _DAYS_BEFORE_MONTH m + (if (m >? 2) && leapyear then 1 else 0) + d - 1 in
  if (1 <=? d) && (d <=? dim)
  then (0 <=? doy) && (doy <=? (if leapyear then 365 else 364))
       && (if doy =? 365 then (m =? 12) && (d =? 31)
           else (fst (month_day leapyear doy) =? m) && (snd (month_day leapyear doy) =? d))
  else true.

Definition months_ok (leapyear : bool) (m : Z) : bool :=
  all_from 32 0 (month_day_inv_ok leapyear m).

(** A year written by its position in the 400, 100 and 4 year cycles. *)
Definition cycle_year (a b c e : Z) : Z := 400 * a + 100 * b + 4 * c + e + 1.

End CalendarVocabulary.

(** ** Titles *)

Fixpoint all_digits (s : string) : bool :=
  match s with
  | EmptyString => true
  | String c s' => pystr.isdigit c && all_digits s'
  end.

(** A title that starts with four digits, a dash, two digits, a dash, two
    digits and a colon: the words of the pattern
    [digit{4}-digit{2}-digit{2}:], with the three groups named. *)
Definition date_prefixed (title y m d : string) : Prop :=
  exists rest,
    title = y +:+ "-" +:+ m +:+ "-" +:+ d +:+ ":" +:+ rest
    /\ String.length y = 4%nat /\ String.length m = 2%nat /\ String.length d = 2%nat
    /\ all_digits y = true /\ all_digits m = true /\ all_digits d = true.

(** ["%0<w>d" % n] has [w] digits and reads back as [n]. *)
Definition format_ok (w : nat) (n : Z) : bool :=
  let s := pystr.format_0d w n in
  (String.length s =? w)%nat && all_digits s && (pystr.int s =? n).

(** The date of an issue, when its title decodes to one. *)
Definition decodes_to (issue : Issue) (d : datetime.date) : Prop :=
  issue_title_to_date (title issue) = Ok (Some d).

(** The titles that are not corrupt: they decode to a date or do not have
    the date prefix. *)
Definition well_titled (issue : Issue) : Prop :=
  (exists d, decodes_to issue d)
  \/ ~ (exists y m d, date_prefixed (title issue) y m d).

(** ** Workdays *)

(** The holiday test in the specification's words: the name with the suffix
    [" (Observed)"] stripped if it is there. *)
Definition strip_observed_suffix (name : string) : string :=
  if pystr.endswith name " (Observed)"
  then String.substring 0 (String.length name - 11) name
  else name.

Definition is_holiday_by_suffix
    (PA_HOLIDAYS : datetime.date -> option string) (holidays_txt : list string)
    (d : datetime.date) : Prop :=
  exists name,
    PA_HOLIDAYS d = Some name
    /\ strip_observed_suffix name ∈ get_holidays holidays_txt.

(** [old in s]: [old] occurs somewhere in [s]. *)
Fixpoint occurs (old s : string) : bool :=
  String.prefix old s
  || match s with
     | String _ s' => occurs old s'
     | EmptyString => false
     end.

(** The form of the names of the jurisdiction's calendar: a holiday's own
    name, in which the marker does not occur, followed by the marker when
    the day is the one on which the holiday is observed. *)
Definition observed_at_end_only (name : string) : Prop :=
  exists base,
    occurs " (Observed)" base = false
    /\ (name = base \/ name = base +:+ " (Observed)").

(** 2021-12-24, the Friday on which Christmas Day was observed. *)
Definition christmas_eve_2021 : datetime.date := 738148.

Definition two_names (d : datetime.date) : option string :=
  if d =? christmas_eve_2021
  then Some "Christmas Day (Observed); Christmas Eve"
  else None.

Definition two_names_txt : list string :=
  [ "# holidays on which no scrum is held" +:+ String "010" "";
    "Christmas Day (Observed); Christmas Eve" +:+ String "010" "" ].

(** The workdays after [lo], up to [hi]. *)
Definition workdays_between
    (PA_HOLIDAYS : datetime.date -> option string) (holidays_txt : list string)
    (lo hi : Z) : list Z :=
  filter (fun d => is_workday PA_HOLIDAYS holidays_txt d = true)
         (seqZ (lo + 1) (hi - lo)).

(** ** Runs *)

(** The issues whose closing a run has requested, in the order of the
    requests. *)
Definition edit_requests (tr : list event) : list Issue :=
  omap (fun e => match e with EditClosed issue => Some issue | _ => None end) tr.

Definition is_create (e : event) : Prop :=
  match e with CreateIssue _ _ => True | _ => False end.

Definition is_close (e : event) : Prop :=
  match e with EditClosed _ => True | _ => False end.

(** An issue is old when its title decodes to a date more than [lifespan]
    days before [today]. *)
Definition is_old (today : datetime.date) (lifespan : Z) (issue : Issue) : bool :=
  match issue_title_to_date (title issue) with
  | Ok (Some d) => today - d >? lifespan
  | _ => false
  end.

(** A step that only adds operations satisfying [P] to the run. *)
Definition emits {A : Type} (P : event -> Prop) (m : prog A) : Prop :=
  forall tr, exists evs, fst (m tr) = tr ++ evs /\ Forall P evs.

(** C7 as stated: the requests are those for the old issues of the list. *)
Definition closes_exactly_the_old
    (today : datetime.date) (tracker_fails : list event -> bool)
    (issues : list Issue) (lifespan : Z) : Prop :=
  edit_requests (fst (close_old_issues today tracker_fails issues lifespan []))
  = filter (fun issue => is_old today lifespan issue = true) issues.

(** ** Further vocabulary *)

(** A line of [holidays.txt] that names no holiday: blank, or a comment,
    also when it is indented. *)
Definition blank_or_comment (line : string) : Prop :=
  pystr.strip line = EmptyString
  \/ pystr.startswith (pystr.strip line) "#" = true.

(** A name without an opening parenthesis. *)
Fixpoint no_paren (s : string) : bool :=
  match s with
  | EmptyString => true
  | String c s' => negb (Ascii.eqb c "(") && no_paren s'
  end.

(** A title that is not corrupt, as a test. *)
Definition well_titledb (issue : Issue) : bool :=
  match issue_title_to_date (title issue) with
  | Ok _ => true
  | Raise _ => false
  end.

(** What a title decodes to, [None] included. *)
Definition decoded (issue : Issue) : option datetime.date :=
  match issue_title_to_date (title issue) with
  | Ok o => o
  | Raise _ => None
  end.

(** The requests of a run, without the log. *)
Definition is_request (e : event) : bool :=
  match e with
  | LogError _ => false
  | _ => true
  end.

Definition requests (tr : list event) : list event :=
  filter (fun e => is_request e = true) tr.

(** The titles of the issues that a run has asked to create, in order. *)
Definition create_requests (tr : list event) : list string :=
  omap (fun e => match e with CreateIssue t _ => Some t | _ => None end) tr.

(** The issue that the tracker holds once [create_scrum_issue] has
    succeeded for [d], under the number the tracker gave it. *)
Definition scrum_issue (number : Z) (d : datetime.date) : Issue :=
  {| number := number; title := scrum_title d |}.

(** A request to close is for an old issue of the list. *)
Definition closes_old_of
    (today : datetime.date) (lifespan : Z) (issues : list Issue) (e : event) : Prop :=
  match e with
  | EditClosed issue => issue ∈ issues /\ is_old today lifespan issue = true
  | _ => True
  end.

(** Two steps that make the same requests and end the same way. *)
Definition same_requests {A : Type} (m m' : prog A) : Prop :=
  forall tr tr',
    requests tr = requests tr' ->
    requests (fst (m tr)) = requests (fst (m' tr')) /\ snd (m tr) = snd (m' tr').

(** ** The scenarios of the specification *)

(** The run of the specification's scenario: Tuesday 2024-12-31, with New
    Year's Day in the calendar and in the allow-list. *)
Definition new_years_eve_2024 : datetime.date := 739251.

Definition new_year (d : datetime.date) : option string :=
  if d =? 739252 then Some "New Year's Day" else None.

(** New Year's Day of 2022, a Saturday, and the Friday before it, 2021-12-31,
    on which it was observed. *)
Definition new_year_2022 (d : datetime.date) : option string :=
  if d =? 738155 then Some "New Year's Day (Observed)"
  else if d =? 738156 then Some "New Year's Day"
  else None.

Definition holidays_file : list string :=
  [ "# holidays on which no scrum is held" +:+ String "010" "";
    String "010" "";
    "New Year's Day" +:+ String "010" "" ].

Definition never_fails (tr : list event) : bool := false.

Definition no_holiday (d : datetime.date) : option string := None.

(** 2024-03-12. *)
Definition march_12_2024 : datetime.date := 738957.

Definition issue_march_4 : Issue :=
  {| number := 1; title := "2024-03-04: e-scrum for Monday, March 4, 2024" |}.

Definition issue_random : Issue :=
  {| number := 2; title := "Random issue" |}.

Definition issue_corrupt : Issue :=
  {| number := 3; title := "2024-02-30: bad" |}.

Definition issue_january_2 : Issue :=
  {| number := 4; title := "2025-01-02: e-scrum for Thursday, January 2, 2025" |}.

(** * Part III: properties *)

(** ** The calendar conversions are inverse to each other *)

Section Calendar.

Import datetime.

Lemma all_from_spec n f : forall r0,
  all_from n r0 f = true -> forall r, r0 <= r < r0 + Z.of_nat n -> f r = true.
Proof.
  induction n as [|n IH]; simpl; intros r0 H r Hr; [lia|].
  apply andb_prop in H as [H1 H2].
  destruct (decide (r = r0)) as [->|]; [done|]. apply (IH (r0 + 1)); [done|lia].
Qed.

Lemma month_day_ok_all leapyear n :
  0 <= n < 365 -> month_day_ok leapyear n = true.
Proof.
  intros Hn.
  assert (H : all_from 365 0 (month_day_ok true) && all_from 365 0 (month_day_ok false) = true)
    by (vm_compute; reflexivity).
  apply andb_prop in H as [Ht Hf].
  destruct leapyear; eapply all_from_spec; eauto; lia.
Qed.

Lemma ord2ymd_unfold n :
  _ord2ymd n =
    let n0 := n - 1 in
    let n400 := n0 / 146097 in
    let r400 := n0 mod 146097 in
    let n100 := r400 / 36524 in
    let r100 := r400 mod 36524 in
    let n4 := r100 / 1461 in
    let r4 := r100 mod 1461 in
    let n1 := r4 / 365 in
    let r1 := r4 mod 365 in
    let year := n400 * 400 + 1 + (n100 * 100 + n4 * 4 + n1) in
    if (n1 =? 4) || (n100 =? 4) then (year - 1, 12, 31)
    else
      let leapyear := (n1 =? 3) && (negb (n4 =? 24) || (n100 =? 3)) in
      (year, fst (month_day leapyear r1), snd (month_day leapyear r1)).
Proof.
  unfold _ord2ymd, month_day, _DI400Y, _DI100Y, _DI4Y. cbv zeta.
  destruct (_ || _); [reflexivity|].
  destruct (_ >? _); reflexivity.
Qed.

Lemma days_before_cycle_year a b c e :
  0 <= b <= 3 -> 0 <= c <= 24 -> 0 <= e <= 3 ->
  _days_before_year (cycle_year a b c e)
  = 146097 * a + 36524 * b + 1461 * c + 365 * e.
Proof.
  intros Hb Hc He. unfold _days_before_year, cycle_year. cbv zeta.
  replace (400 * a + 100 * b + 4 * c + e + 1 - 1)
    with (400 * a + 100 * b + 4 * c + e) by lia.
  rewrite <- (Z.div_unique _ 4 (100 * a + 25 * b + c) e) by lia.
  rewrite <- (Z.div_unique _ 100 (4 * a + b) (4 * c + e)) by lia.
  rewrite <- (Z.div_unique _ 400 a (100 * b + 4 * c + e)) by lia.
  lia.
Qed.

Lemma is_leap_cycle_year a b c e :
  0 <= b <= 3 -> 0 <= c <= 24 -> 0 <= e <= 3 ->
  _is_leap (cycle_year a b c e)
  = (e =? 3) && (negb (c =? 24) || (b =? 3)).
Proof.
  intros Hb Hc He. unfold _is_leap, cycle_year.
  repeat match goal with
         | |- context [?x =? ?y] => destruct (Z.eqb_spec x y)
         end; simpl; try reflexivity; exfalso;
    Z.to_euclidean_division_equations; lia.
Qed.

Theorem ord2ymd_ok n :
  is_date n ->
  let '(y, m, d) := _ord2ymd n in
  _check_date_fields y m d = true /\ _ymd2ord y m d = n.
Proof.
  unfold is_date, _MAXORDINAL. intros Hn.
  rewrite ord2ymd_unfold. cbv zeta.
  pose proof (Z.div_mod (n - 1) 146097 ltac:(lia)) as E400.
  pose proof (Z.mod_pos_bound (n - 1) 146097 ltac:(lia)) as B400.
  set (n400 := (n - 1) / 146097) in *. set (r400 := (n - 1) mod 146097) in *.
  pose proof (Z.div_mod r400 36524 ltac:(lia)) as E100.
  pose proof (Z.mod_pos_bound r400 36524 ltac:(lia)) as B100.
  set (n100 := r400 / 36524) in *. set (r100 := r400 mod 36524) in *.
  pose proof (Z.div_mod r100 1461 ltac:(lia)) as E4.
  pose proof (Z.mod_pos_bound r100 1461 ltac:(lia)) as B4.
  set (n4 := r100 / 1461) in *. set (r4 := r100 mod 1461) in *.
  pose proof (Z.div_mod r4 365 ltac:(lia)) as E1.
  pose proof (Z.mod_pos_bound r4 365 ltac:(lia)) as B1.
  set (n1 := r4 / 365) in *. set (r1 := r4 mod 365) in *.
  clearbody n400 r400 n100 r100 n4 r4 n1 r1.
  assert (0 <= n400 <= 24) by lia.
  assert (0 <= n100 <= 4) by lia.
  assert (0 <= n4 <= 24) by lia.
  assert (0 <= n1 <= 4) by lia.
  destruct ((n1 =? 4) || (n100 =? 4)) eqn:Hlast.
  - (* the last day of a leap year *)
    assert (exists b c, 0 <= b <= 3 /\ 0 <= c <= 24 /\ negb (c =? 24) || (b =? 3) = true /\
              n400 * 400 + 1 + (n100 * 100 + n4 * 4 + n1) - 1 = cycle_year n400 b c 3
              /\ n = 146097 * n400 + 36524 * b + 1461 * c + 1461
              /\ cycle_year n400 b c 3 <= 9999)
      as (b & c & Hb & Hc & Hbc & -> & -> & Hy).
    { unfold cycle_year. apply orb_true_iff in Hlast as [?%Z.eqb_eq | ?%Z.eqb_eq].
      - exists n100, n4. assert (n4 <> 24) by lia.
        replace (n4 =? 24) with false by (symmetry; apply Z.eqb_neq; lia).
        simpl. repeat split; lia.
      - exists 3, 24. simpl. repeat split; lia. }
    pose proof (is_leap_cycle_year n400 b c 3 Hb Hc ltac:(lia)) as Hleap.
    rewrite Hbc in Hleap. simpl in Hleap.
    unfold _check_date_fields, _ymd2ord, _days_in_month, _days_before_month,
      MINYEAR, MAXYEAR.
    rewrite Hleap, days_before_cycle_year by lia. simpl.
    split; [|lia].
    repeat (apply andb_true_intro; split); try reflexivity; apply Z.leb_le;
      unfold cycle_year in *; lia.
  - apply orb_false_iff in Hlast as [?%Z.eqb_neq ?%Z.eqb_neq].
    replace (n400 * 400 + 1 + (n100 * 100 + n4 * 4 + n1))
      with (cycle_year n400 n100 n4 n1) by (unfold cycle_year; lia).
    pose proof (is_leap_cycle_year n400 n100 n4 n1 ltac:(lia) ltac:(lia) ltac:(lia))
      as Hleap.
    set (leapyear := (n1 =? 3) && (negb (n4 =? 24) || (n100 =? 3))) in *.
    pose proof (month_day_ok_all leapyear r1 B1) as Hmd.
    unfold month_day_ok in Hmd.
    destruct (month_day leapyear r1) as [m d]. simpl.
    apply andb_prop in Hmd as [Hmd Hsum%Z.eqb_eq].
    apply andb_prop in Hmd as [Hmd Hd2]. apply andb_prop in Hmd as [Hmd Hd1].
    apply andb_prop in Hmd as [Hm1 Hm2].
    unfold _check_date_fields, _ymd2ord, _days_in_month, _days_before_month,
      MINYEAR, MAXYEAR.
    rewrite Hleap, days_before_cycle_year by lia.
    split.
    + repeat (apply andb_true_intro; split); try assumption; apply Z.leb_le.
      * unfold cycle_year; lia.
      * unfold cycle_year.
        destruct (decide (n400 = 24)); [|lia].
        assert (r400 <= 145730) by lia.
        lia.
    + lia.
Qed.

Lemma days_in_month_le y m : _days_in_month y m <= 31.
Proof.
  unfold _days_in_month. destruct (_ && _); [lia|].
  unfold _DAYS_IN_MONTH.
  repeat match goal with |- context [match ?x with _ => _ end] => destruct x end; lia.
Qed.

Lemma month_day_inv leapyear m d :
  1 <= m <= 12 ->
  1 <= d <= (if (m =? 2) && leapyear then 29 else _DAYS_IN_MONTH m) ->
  let doy := _DAYS_BEFORE_MONTH m + (if (m >? 2) && leapyear then 1 else 0) + d - 1 in
  0 <= doy <= (if leapyear then 365 else 364)
  /\ (doy = 365 -> m = 12 /\ d = 31)
  /\ (doy <> 365 -> month_day leapyear doy = (m, d)).
Proof.
  intros Hm Hd.
  assert (H : all_from 13 0 (months_ok true) && all_from 13 0 (months_ok false) = true)
    by (vm_compute; reflexivity).
  assert (Hok : month_day_inv_ok leapyear m d = true).
  { apply andb_prop in H as [Ht Hf].
    assert (Hmo : months_ok leapyear m = true)
      by (destruct leapyear; eapply all_from_spec; eauto; lia).
    unfold months_ok in Hmo. eapply all_from_spec; [exact Hmo|].
    pose proof (days_in_month_le 0 m).
    assert (d <= 31); [|lia].
    destruct ((m =? 2) && leapyear); [lia|].
    unfold _days_in_month in *. destruct ((m =? 2) && _is_leap 0) eqn:E.
    - apply andb_prop in E as [->%Z.eqb_eq _]. simpl in Hd. lia.
    - lia. }
  clear H. unfold month_day_inv_ok in Hok. cbv zeta in Hok |- *.
  destruct (_ && _) eqn:Hv in Hok.
  2:{ apply andb_false_iff in Hv as [?%Z.leb_gt|?%Z.leb_gt]; lia. }
  apply andb_prop in Hok as [[H0%Z.leb_le H1%Z.leb_le]%andb_prop Hmd].
  split; [lia|]. split.
  - intros E. rewrite E in Hmd. simpl in Hmd.
    apply andb_prop in Hmd as [?%Z.eqb_eq ?%Z.eqb_eq]. done.
  - intros E%Z.eqb_neq. rewrite E in Hmd.
    apply andb_prop in Hmd as [?%Z.eqb_eq ?%Z.eqb_eq].
    destruct (month_day _ _); simpl in *; congruence.
Qed.

Lemma year_in_cycles y :
  1 <= y ->
  exists a b c e,
    y = cycle_year a b c e /\ 0 <= a /\ 0 <= b <= 3 /\ 0 <= c <= 24 /\ 0 <= e <= 3.
Proof.
  intros Hy.
  exists ((y - 1) / 400), ((y - 1) mod 400 / 100), ((y - 1) mod 100 / 4), ((y - 1) mod 4).
  unfold cycle_year. Z.to_euclidean_division_equations. lia.
Qed.

(** The conversions the other way round: the date made of a valid year,
    month and day is in range and has these as its year, month and day. *)
Theorem ymd2ord_ok y m d :
  _check_date_fields y m d = true ->
  is_date (_ymd2ord y m d) /\ _ord2ymd (_ymd2ord y m d) = (y, m, d).
Proof.
  unfold _check_date_fields, MINYEAR, MAXYEAR, _days_in_month. intros Hchk.
  apply andb_prop in Hchk as [Hchk Hd2%Z.leb_le].
  apply andb_prop in Hchk as [Hchk Hd1%Z.leb_le].
  apply andb_prop in Hchk as [Hchk Hm2%Z.leb_le].
  apply andb_prop in Hchk as [Hchk Hm1%Z.leb_le].
  apply andb_prop in Hchk as [Hy1%Z.leb_le Hy2%Z.leb_le].
  destruct (year_in_cycles y Hy1) as (a & b & c & e & -> & Ha & Hb & Hc & He).
  pose proof (is_leap_cycle_year a b c e Hb Hc He) as Hleap.
  pose proof (days_before_cycle_year a b c e Hb Hc He) as Hdby.
  set (leap := _is_leap (cycle_year a b c e)) in *.
  destruct (month_day_inv leap m d ltac:(lia) ltac:(lia)) as (Hdoy & Hlast & Hmd).
  cbv zeta in Hdoy, Hlast, Hmd.
  set (doy := _DAYS_BEFORE_MONTH m + (if (m >? 2) && leap then 1 else 0) + d - 1) in *.
  assert (Hn : _ymd2ord (cycle_year a b c e) m d
               = 146097 * a + 36524 * b + 1461 * c + 365 * e + doy + 1).
  { unfold _ymd2ord, _days_before_month. fold leap. rewrite Hdby. subst doy. lia. }
  assert (Hleap3 : leap = true -> e = 3 /\ (c <> 24 \/ b = 3)).
  { rewrite Hleap. intros [?%Z.eqb_eq Hcb]%andb_prop. split; [done|].
    apply orb_prop in Hcb as [?%negb_true_iff%Z.eqb_neq|?%Z.eqb_eq]; auto. }
  assert (Hdoy' : doy <= 364 \/ (doy = 365 /\ e = 3 /\ (c <> 24 \/ b = 3))).
  { destruct leap; [|lia]. destruct (Hleap3 eq_refl). lia. }
  unfold cycle_year in Hy2.
  split; [unfold is_date, _MAXORDINAL; rewrite Hn; lia|].
  rewrite ord2ymd_unfold, Hn. cbv zeta.
  replace (146097 * a + 36524 * b + 1461 * c + 365 * e + doy + 1 - 1)
    with (146097 * a + (36524 * b + 1461 * c + 365 * e + doy)) by lia.
  rewrite <- (Z.div_unique _ 146097 a (36524 * b + 1461 * c + 365 * e + doy)) by lia.
  rewrite <- (Z.mod_unique _ 146097 a (36524 * b + 1461 * c + 365 * e + doy)) by lia.
  destruct (decide (doy = 365)) as [E365|N365].
  - (* the last day of a leap year *)
    destruct (Hlast E365) as [-> ->].
    assert (e = 3 /\ (c <> 24 \/ b = 3)) as [-> Hcb] by lia.
    destruct (decide (c = 24)) as [->|Hc24].
    + assert (b = 3) as -> by lia. rewrite E365.
      change (36524 * 3 + 1461 * 24 + 365 * 3 + 365) with 146096. simpl.
      unfold cycle_year. f_equal. f_equal. Z.to_euclidean_division_equations. lia.
    + rewrite <- (Z.div_unique _ 36524 b (1461 * c + 365 * 3 + doy)) by lia.
      rewrite <- (Z.mod_unique _ 36524 b (1461 * c + 365 * 3 + doy)) by lia.
      rewrite <- (Z.div_unique _ 1461 c (365 * 3 + doy)) by lia.
      rewrite <- (Z.mod_unique _ 1461 c (365 * 3 + doy)) by lia.
      rewrite E365. change ((365 * 3 + 365) / 365) with 4. simpl.
      unfold cycle_year. f_equal. f_equal. lia.
  - assert (doy <= 364) by lia.
    rewrite <- (Z.div_unique _ 36524 b (1461 * c + 365 * e + doy)) by lia.
    rewrite <- (Z.mod_unique _ 36524 b (1461 * c + 365 * e + doy)) by lia.
    rewrite <- (Z.div_unique _ 1461 c (365 * e + doy)) by lia.
    rewrite <- (Z.mod_unique _ 1461 c (365 * e + doy)) by lia.
    rewrite <- (Z.div_unique _ 365 e doy) by lia.
    rewrite <- (Z.mod_unique _ 365 e doy) by lia.
    replace ((e =? 4) || (b =? 4)) with false
      by (symmetry; apply orb_false_iff; split; apply Z.eqb_neq; lia).
    rewrite <- Hleap. rewrite (Hmd N365). simpl.
    unfold cycle_year. f_equal. f_equal. lia.
Qed.

(** [datetime.date(y, m, d)] succeeds exactly on the valid fields, and the
    date it makes has [y], [m] and [d] as its year, month and day: the
    ordinals from [date.min] to [date.max] and the valid calendar dates
    are the same thing. *)
Corollary mkdate_Ok y m d n :
  mkdate y m d = Ok n -> is_date n /\ ymd n = (y, m, d).
Proof.
  unfold mkdate, ymd. destruct (_check_date_fields y m d) eqn:Hchk; [|discriminate].
  intros [= <-]. by apply ymd2ord_ok.
Qed.

Corollary mkdate_ymd n :
  is_date n -> let '(y, m, d) := ymd n in mkdate y m d = Ok n.
Proof.
  intros Hn. pose proof (ord2ymd_ok n Hn) as Hok. unfold ymd, mkdate.
  destruct (_ord2ymd n) as [[y m] d]. destruct Hok as [-> ->]. reflexivity.
Qed.

End Calendar.

(** ** Properties of the title codec *)

Section Codec.

Import datetime.

Lemma append_cons c (s1 s2 : string) : String c s1 +:+ s2 = String c (s1 +:+ s2).
Proof. reflexivity. Qed.

Lemma append_assoc (s1 s2 s3 : string) : (s1 +:+ s2) +:+ s3 = s1 +:+ (s2 +:+ s3).
Proof.
  induction s1 as [|c s1 IH]; [reflexivity|].
  rewrite !append_cons. by rewrite IH.
Qed.

Lemma digits_append ds rest :
  all_digits ds = true -> re.digits (String.length ds) (ds +:+ rest) = Some (ds, rest).
Proof.
  induction ds as [|c ds IH]; [reflexivity|].
  rewrite append_cons. simpl.
  intros [Hc Hds]%andb_prop. rewrite Hc, (IH Hds). reflexivity.
Qed.

Lemma digits_inv n : forall s ds rest,
  re.digits n s = Some (ds, rest) ->
  s = ds +:+ rest /\ String.length ds = n /\ all_digits ds = true.
Proof.
  induction n as [|n IH]; simpl; intros s ds rest H.
  - injection H as <- <-. auto.
  - destruct s as [|c s]; [discriminate|].
    destruct (pystr.isdigit c) eqn:Hc; [|discriminate].
    destruct (re.digits n s) as [[ds' rest']|] eqn:Hn; [|discriminate].
    injection H as <- <-. apply IH in Hn as (-> & <- & Hds).
    rewrite append_cons. simpl. rewrite Hc, Hds. auto.
Qed.

Lemma literal_inv c s rest : re.literal c s = Some rest -> s = String c rest.
Proof.
  destruct s as [|c' s]; simpl; [discriminate|].
  destruct (Ascii.eqb_spec c c') as [->|]; [|discriminate]. by intros [= ->].
Qed.

Lemma literal_append c s : re.literal c (String c EmptyString +:+ s) = Some s.
Proof. rewrite append_cons. simpl. by rewrite Ascii.eqb_refl. Qed.

Lemma pattern_match_iff title y m d :
  re.pattern_match title = Some (y, m, d) <-> date_prefixed title y m d.
Proof.
  unfold re.pattern_match, date_prefixed. split.
  - intros H.
    apply bind_Some in H as ([y' s1] & H1 & H).
    apply bind_Some in H as (s2 & H2 & H).
    apply bind_Some in H as ([m' s3] & H3 & H).
    apply bind_Some in H as (s4 & H4 & H).
    apply bind_Some in H as ([d' s5] & H5 & H).
    apply bind_Some in H as (s6 & H6 & H).
    injection H as -> -> ->.
    apply digits_inv in H1 as (-> & ? & ?), H3 as (-> & ? & ?), H5 as (-> & ? & ?).
    apply literal_inv in H2 as ->, H4 as ->, H6 as ->.
    exists s6. auto 10.
  - intros (rest & -> & Hy & Hm & Hd & Ay & Am & Ad).
    pose proof (fun s => digits_append y s Ay) as Dy. rewrite Hy in Dy.
    pose proof (fun s => digits_append m s Am) as Dm. rewrite Hm in Dm.
    pose proof (fun s => digits_append d s Ad) as Dd. rewrite Hd in Dd.
    rewrite Dy. cbn [mbind option_bind].
    rewrite literal_append. cbn [mbind option_bind].
    rewrite Dm. cbn [mbind option_bind].
    rewrite literal_append. cbn [mbind option_bind].
    rewrite Dd. cbn [mbind option_bind].
    rewrite literal_append. reflexivity.
Qed.

Lemma format_4_ok n : 0 <= n <= 9999 -> format_ok 4 n = true.
Proof.
  intros Hn.
  assert (H : all_from (Z.to_nat 10000) 0 (format_ok 4) = true) by (vm_compute; reflexivity).
  eapply all_from_spec; [exact H | lia].
Qed.

Lemma format_2_ok n : 0 <= n <= 99 -> format_ok 2 n = true.
Proof.
  intros Hn.
  assert (H : all_from 100 0 (format_ok 2) = true) by (vm_compute; reflexivity).
  eapply all_from_spec; [exact H | lia].
Qed.

(** The ISO form of a date carries the pattern's prefix, and its three
    groups read back as the date's year, month and day. *)
Lemma isoformat_prefixed d suffix :
  is_date d ->
  exists y m dd,
    date_prefixed (isoformat d +:+ ":" +:+ suffix) y m dd
    /\ mkdate (pystr.int y) (pystr.int m) (pystr.int dd) = Ok d.
Proof.
  intros Hd. pose proof (ord2ymd_ok d Hd) as Hok.
  unfold isoformat, ymd. destruct (_ord2ymd d) as [[y m] dd].
  destruct Hok as [Hchk Hord].
  assert (Hr : (1 <= y <= 9999) /\ (1 <= m <= 12) /\ (1 <= dd <= 31)).
  { unfold _check_date_fields, MINYEAR, MAXYEAR in Hchk.
    pose proof (days_in_month_le y m).
    repeat (apply andb_prop in Hchk as [Hchk ?]).
    repeat match goal with H : (_ <=? _) = true |- _ => apply Z.leb_le in H end.
    lia. }
  destruct Hr as (Hy & Hm & Hdd).
  pose proof (format_4_ok y ltac:(lia)) as Fy.
  pose proof (format_2_ok m ltac:(lia)) as Fm.
  pose proof (format_2_ok dd ltac:(lia)) as Fd.
  unfold format_ok in Fy, Fm, Fd. cbv zeta in Fy, Fm, Fd.
  apply andb_prop in Fy as [[Ly Ay]%andb_prop Iy%Z.eqb_eq].
  apply andb_prop in Fm as [[Lm Am]%andb_prop Im%Z.eqb_eq].
  apply andb_prop in Fd as [[Ld Ad]%andb_prop Id%Z.eqb_eq].
  apply Nat.eqb_eq in Ly, Lm, Ld.
  exists (pystr.format_0d 4 y), (pystr.format_0d 2 m), (pystr.format_0d 2 dd).
  split.
  - exists suffix. rewrite !append_assoc. auto 10.
  - rewrite Iy, Im, Id. unfold mkdate. rewrite Hchk, Hord. reflexivity.
Qed.

(** A decoded date is a calendar date. *)
Lemma issue_title_to_date_is_date title d :
  issue_title_to_date title = Ok (Some d) -> is_date d.
Proof.
  unfold issue_title_to_date.
  destruct (re.pattern_match title) as [[[y m] dd]|]; [|discriminate].
  destruct (mkdate _ _ _) as [n|] eqn:Hmk; simpl; [|discriminate].
  intros [= <-]. by apply mkdate_Ok in Hmk as [? _].
Qed.

(** C5: decoding the title that issue creation gives a date yields the
    date, whatever follows the colon. *)
Theorem title_roundtrip d :
  is_date d ->
  issue_title_to_date (scrum_title d) = Ok (Some d)
  /\ forall suffix, issue_title_to_date (isoformat d +:+ ":" +:+ suffix) = Ok (Some d).
Proof.
  intros Hd.
  assert (Hany : forall suffix,
             issue_title_to_date (isoformat d +:+ ":" +:+ suffix) = Ok (Some d)).
  { intros suffix.
    destruct (isoformat_prefixed d suffix Hd) as (y & m & dd & Hp & Hmk).
    apply pattern_match_iff in Hp.
    unfold issue_title_to_date. rewrite Hp, Hmk. reflexivity. }
  split; [|exact Hany].
  apply (Hany (" e-scrum for " +:+ strftime_long d)).
Qed.

(** A title without the date prefix has no date. *)
Lemma issue_title_to_date_unprefixed title :
  ~ (exists y m d, date_prefixed title y m d) ->
  issue_title_to_date title = Ok None.
Proof.
  intros H. unfold issue_title_to_date.
  destruct (re.pattern_match title) as [[[y m] d]|] eqn:Hp; [|reflexivity].
  exfalso. apply H. exists y, m, d. by apply pattern_match_iff.
Qed.

(** C6: [issue_title_to_date] returns [None] exactly for the titles
    without the date prefix, and raises [ValueError] when the prefix is
    there and its numbers are not a calendar date. *)
Theorem issue_title_to_date_no_date title :
  (issue_title_to_date title = Ok None
   <-> ~ exists y m d, date_prefixed title y m d)
  /\ (forall y m d,
        date_prefixed title y m d ->
        _check_date_fields (pystr.int y) (pystr.int m) (pystr.int d) = false ->
        issue_title_to_date title = Raise ValueError).
Proof.
  unfold issue_title_to_date. split.
  - split.
    + intros H (y & m & d & Hp). apply pattern_match_iff in Hp. rewrite Hp in H.
      unfold mkdate in H. destruct (_check_date_fields _ _ _); discriminate.
    + apply issue_title_to_date_unprefixed.
  - intros y m d Hp%pattern_match_iff Hbad.
    rewrite Hp. unfold mkdate. rewrite Hbad. reflexivity.
Qed.

End Codec.

(** ** Properties of the workday calendar *)

Section Workdays.

Variable PA_HOLIDAYS : datetime.date -> option string.
Variable holidays_txt : list string.

Lemma get_holidays_nonempty : EmptyString ∉ get_holidays holidays_txt.
Proof.
  unfold get_holidays. rewrite elem_of_list_to_set, list_elem_of_filter.
  intros [[H _] _]. by apply H.
Qed.

Lemma workday_not_weekend_not_holiday d :
  is_workday PA_HOLIDAYS holidays_txt d = true ->
  datetime.weekday d <> SAT /\ datetime.weekday d <> SUN
  /\ is_holiday PA_HOLIDAYS holidays_txt d = false.
Proof.
  unfold is_workday, WEEKEND.
  intros [Hwd Hhol]%andb_prop. apply negb_true_iff in Hwd, Hhol.
  apply bool_decide_eq_false in Hwd. rewrite !elem_of_cons, elem_of_nil in Hwd.
  tauto.
Qed.

(** C3: a date is a workday exactly when it is neither a Saturday nor a
    Sunday nor a holiday. *)
Theorem is_workday_iff d :
  is_workday PA_HOLIDAYS holidays_txt d = true
  <-> datetime.weekday d <> SAT /\ datetime.weekday d <> SUN
      /\ is_holiday PA_HOLIDAYS holidays_txt d = false.
Proof.
  unfold is_workday, WEEKEND.
  rewrite andb_true_iff, !negb_true_iff, bool_decide_eq_false.
  rewrite !elem_of_cons, elem_of_nil. tauto.
Qed.

(** Whatever the names of the calendar are: a date is a holiday exactly
    when it has an official name that, with every occurrence of
    [" (Observed)"] removed, is in the allow-list. *)
Lemma is_holiday_replace_iff d :
  (is_holiday PA_HOLIDAYS holidays_txt d = true
   <-> exists name,
         PA_HOLIDAYS d = Some name
         /\ pystr.replace name " (Observed)" "" ∈ get_holidays holidays_txt)
  /\ (PA_HOLIDAYS d = None -> is_holiday PA_HOLIDAYS holidays_txt d = false).
Proof.
  unfold is_holiday. split.
  - rewrite bool_decide_eq_true. split.
    + destruct (PA_HOLIDAYS d) as [name|]; simpl; [eauto|].
      intros H. by apply get_holidays_nonempty in H.
    + intros (name & -> & H). exact H.
  - intros ->. simpl. apply bool_decide_eq_false, get_holidays_nonempty.
Qed.

Lemma append_nil_r (s : string) : s +:+ "" = s.
Proof. induction s as [|c s IH]; [reflexivity|]. by rewrite append_cons, IH. Qed.

Lemma length_append (s t : string) :
  String.length (s +:+ t) = (String.length s + String.length t)%nat.
Proof. induction s as [|c s IH]; [reflexivity|]. rewrite append_cons. simpl. by rewrite IH. Qed.

Lemma substring_append (s t : string) : String.substring 0 (String.length s) (s +:+ t) = s.
Proof.
  induction s as [|c s IH]; [by destruct t|]. rewrite append_cons. simpl. by rewrite IH.
Qed.

Lemma prefix_iff (p s : string) : String.prefix p s = true <-> exists t, s = p +:+ t.
Proof.
  revert s. induction p as [|a p IH]; intros s.
  - split; [intros _; by exists s|intros _; by destruct s].
  - destruct s as [|b s].
    + split; [discriminate|intros [t Ht]; discriminate].
    + simpl. destruct (ascii_dec a b) as [<-|Hne].
      * rewrite IH. split; intros [t Ht]; exists t.
        -- by rewrite append_cons, Ht.
        -- rewrite append_cons in Ht. congruence.
      * split; [discriminate|]. intros [t Ht]. rewrite append_cons in Ht. congruence.
Qed.

Lemma rev_app_append (s1 s2 : string) : String.rev_app s1 s2 = String.rev s1 +:+ s2.
Proof.
  unfold String.rev. revert s2. induction s1 as [|a s1 IH]; intros s2; [reflexivity|].
  simpl. rewrite (IH (String a s2)), (IH (String a "")), append_assoc. reflexivity.
Qed.

Lemma rev_append (s t : string) : String.rev (s +:+ t) = String.rev t +:+ String.rev s.
Proof.
  induction s as [|a s IH]; [by rewrite append_nil_r|].
  rewrite append_cons. unfold String.rev at 1 3. simpl.
  rewrite !rev_app_append, IH, append_assoc. reflexivity.
Qed.

Lemma rev_involutive (s : string) : String.rev (String.rev s) = s.
Proof.
  induction s as [|a s IH]; [reflexivity|].
  unfold String.rev at 2. simpl. rewrite rev_app_append, rev_append, IH. reflexivity.
Qed.

Lemma endswith_iff (s p : string) : pystr.endswith s p = true <-> exists t, s = t +:+ p.
Proof.
  unfold pystr.endswith. rewrite prefix_iff. split.
  - intros [t Ht]. exists (String.rev t).
    by rewrite <- (rev_involutive s), Ht, rev_append, rev_involutive.
  - intros [t ->]. exists (String.rev t). apply rev_append.
Qed.

Lemma occurs_prefix (old s : string) : String.prefix old s = true -> occurs old s = true.
Proof. intros H. destruct s; cbn [occurs]; by rewrite H. Qed.

Lemma occurs_append (old pre post : string) : occurs old (pre +:+ old +:+ post) = true.
Proof.
  induction pre as [|c pre IH].
  - apply occurs_prefix, prefix_iff. by exists post.
  - rewrite append_cons. cbn [occurs]. rewrite IH. apply orb_true_r.
Qed.

Lemma occurs_cons (old : string) c s :
  occurs old (String c s) = false ->
  String.prefix old (String c s) = false /\ occurs old s = false.
Proof. cbn [occurs]. by intros ?%orb_false_elim. Qed.

(** The marker does not overlap itself: where it starts inside a name that
    is followed by the marker, it lies in the name. *)
Lemma prefix_observed_append (s : string) :
  s <> EmptyString ->
  String.prefix " (Observed)" (s +:+ " (Observed)") = true ->
  String.prefix " (Observed)" s = true.
Proof.
  intros Hs H. destruct s as [|c s]; [done|]. clear Hs.
  rewrite append_cons in H. cbn [String.prefix] in H |- *.
  destruct (ascii_dec " " c) as [<-|]; [|discriminate].
  do 10 (destruct s as [|c s]; [discriminate H|];
         rewrite append_cons in H; cbn [String.prefix] in H |- *;
         match goal with
         | |- context [ascii_dec ?a c] => destruct (ascii_dec a c) as [<-|]; [|discriminate]
         end).
  by destruct s.
Qed.

Lemma replace_without_marker (base : string) :
  occurs " (Observed)" base = false ->
  pystr.replace base " (Observed)" "" = base.
Proof.
  unfold pystr.replace. induction base as [|c base IH]; [reflexivity|].
  intros [Hp Ho]%occurs_cons. cbn [pystr.replace_from]. rewrite Hp. by rewrite IH.
Qed.

Lemma replace_marker_at_end (base : string) :
  occurs " (Observed)" base = false ->
  pystr.replace (base +:+ " (Observed)") " (Observed)" "" = base.
Proof.
  unfold pystr.replace. induction base as [|c base IH]; [reflexivity|].
  intros [Hp Ho]%occurs_cons. rewrite append_cons. cbn [pystr.replace_from].
  destruct (String.prefix " (Observed)" (String c (base +:+ " (Observed)"))) eqn:E.
  - rewrite <- append_cons in E. apply prefix_observed_append in E; [congruence|done].
  - by rewrite IH.
Qed.

Lemma strip_suffix_without_marker (base : string) :
  occurs " (Observed)" base = false -> strip_observed_suffix base = base.
Proof.
  intros Ho. unfold strip_observed_suffix.
  destruct (pystr.endswith base " (Observed)") eqn:E; [|reflexivity].
  apply endswith_iff in E as [t ->].
  rewrite <- (append_nil_r " (Observed)") in Ho.
  by rewrite occurs_append in Ho.
Qed.

Lemma strip_suffix_marker_at_end (base : string) :
  strip_observed_suffix (base +:+ " (Observed)") = base.
Proof.
  unfold strip_observed_suffix.
  replace (pystr.endswith (base +:+ " (Observed)") " (Observed)") with true
    by (symmetry; apply endswith_iff; by exists base).
  rewrite length_append. simpl String.length.
  replace (String.length base + 11 - 11)%nat with (String.length base) by lia.
  apply substring_append.
Qed.

(** C4: on a date whose official name carries the marker [" (Observed)"]
    at its end or not at all, as the names of the jurisdiction's calendar
    do, the date is a holiday exactly when the name, with the suffix
    [" (Observed)"] stripped if it is there, is in the allow-list; a date
    without an official name is no holiday, whatever the allow-list. *)
Theorem is_holiday_by_suffix_iff d :
  ((forall name, PA_HOLIDAYS d = Some name -> observed_at_end_only name) ->
   (is_holiday PA_HOLIDAYS holidays_txt d = true
    <-> is_holiday_by_suffix PA_HOLIDAYS holidays_txt d))
  /\ (PA_HOLIDAYS d = None -> is_holiday PA_HOLIDAYS holidays_txt d = false).
Proof.
  unfold is_holiday, is_holiday_by_suffix.
  destruct (PA_HOLIDAYS d) as [name|]; simpl.
  - split; [intros Hname|discriminate]. rewrite bool_decide_eq_true.
    assert (Heq : pystr.replace name " (Observed)" "" = strip_observed_suffix name).
    { destruct (Hname name eq_refl) as (base & Hbase & [-> | ->]).
      - by rewrite replace_without_marker, strip_suffix_without_marker.
      - by rewrite replace_marker_at_end, strip_suffix_marker_at_end. }
    rewrite Heq. split.
    + intros H. by exists name.
    + by intros (name' & [= <-] & H).
  - split; [intros _|intros _; apply bool_decide_eq_false, get_holidays_nonempty].
    rewrite bool_decide_eq_true. split.
    + intros H. by apply get_holidays_nonempty in H.
    + by intros (name & ? & _).
Qed.

End Workdays.

(** ** Properties of [get_upcoming_workdays] *)

Section Upcoming.

Variable today : datetime.date.
Variable PA_HOLIDAYS : datetime.date -> option string.
Variable holidays_txt : list string.

Local Abbreviation workday := (is_workday PA_HOLIDAYS holidays_txt).
Local Abbreviation loop := (upcoming_loop PA_HOLIDAYS holidays_txt).
Local Abbreviation later_workdays := (workdays_between PA_HOLIDAYS holidays_txt).

Lemma upcoming_loop_eq date i workdays_ahead :
  loop date i workdays_ahead =
    if i <? workdays_ahead then
      match datetime.add_days date 1 with
      | Raise e => ([], Some e)
      | Ok date' =>
          if workday date'
          then yield date' (loop date' (i + 1) workdays_ahead)
          else loop date' i workdays_ahead
      end
    else ([], None).
Proof.
  simp upcoming_loop.
  destruct (i <? workdays_ahead); simpl; [|reflexivity].
  destruct (datetime.add_days date 1); reflexivity.
Qed.

Lemma workdays_between_nil lo hi : hi <= lo -> later_workdays lo hi = [].
Proof. intros H. unfold workdays_between. by rewrite seqZ_nil by lia. Qed.

Lemma workdays_between_step lo hi :
  lo < hi ->
  later_workdays lo hi =
    if workday (lo + 1)
    then (lo + 1) :: later_workdays (lo + 1) hi
    else later_workdays (lo + 1) hi.
Proof.
  intros H. unfold workdays_between.
  rewrite seqZ_cons by lia. rewrite filter_cons.
  replace (Z.succ (lo + 1)) with (lo + 1 + 1) by lia.
  replace (Z.pred (hi - lo)) with (hi - (lo + 1)) by lia.
  destruct (workday (lo + 1)); simpl; [|reflexivity].
  destruct (decide (true = true)); [reflexivity|done].
Qed.

Lemma elem_of_workdays_between lo hi d :
  d ∈ later_workdays lo hi <-> lo < d <= hi /\ workday d = true.
Proof.
  unfold workdays_between. rewrite list_elem_of_filter, elem_of_seqZ.
  intuition lia.
Qed.

(** What the loop yields and how it ends: the first [workdays_ahead - i]
    workdays after [date], or all of them and an [OverflowError] when the
    calendar has fewer. *)
Lemma upcoming_loop_spec (n : nat) : forall date i workdays_ahead,
  0 <= date <= datetime._MAXORDINAL ->
  Z.to_nat (datetime._MAXORDINAL - date) = n ->
  let k := Z.to_nat (workdays_ahead - i) in
  let ws := later_workdays date datetime._MAXORDINAL in
  loop date i workdays_ahead =
    (take k ws, if decide (k <= length ws)%nat then None else Some OverflowError).
Proof.
  induction n as [|n IH]; intros date i wa Hdate Hn; cbv zeta;
    rewrite upcoming_loop_eq; destruct (Z.ltb_spec i wa) as [Hi|Hi].
  - assert (date = datetime._MAXORDINAL) as -> by lia.
    rewrite workdays_between_nil by lia.
    unfold datetime.add_days, datetime.fromordinal.
    replace (datetime._MAXORDINAL + 1 <=? datetime._MAXORDINAL) with false
      by (symmetry; apply Z.leb_gt; lia).
    rewrite andb_false_r, take_nil. simpl.
    destruct (decide _) as [Hle|]; [lia|reflexivity].
  - replace (Z.to_nat (wa - i)) with 0%nat by lia. rewrite take_0.
    destruct (decide _) as [|Hle]; [reflexivity|]. exfalso. apply Hle. lia.
  - unfold datetime.add_days, datetime.fromordinal.
    replace ((1 <=? date + 1) && (date + 1 <=? datetime._MAXORDINAL)) with true
      by (symmetry; apply andb_true_intro; split; apply Z.leb_le; lia).
    rewrite (workdays_between_step date) by lia.
    assert (Hk : Z.to_nat (wa - i) = S (Z.to_nat (wa - (i + 1)))) by lia.
    destruct (workday (date + 1)) eqn:Hw.
    + rewrite (IH (date + 1) (i + 1) wa) by lia. cbv zeta.
      rewrite Hk. unfold yield. simpl.
      repeat destruct (decide _); try reflexivity; lia.
    + rewrite (IH (date + 1) i wa) by lia. reflexivity.
  - replace (Z.to_nat (wa - i)) with 0%nat by lia. rewrite take_0.
    destruct (decide _) as [|Hle]; [reflexivity|]. exfalso. apply Hle. lia.
Qed.

Lemma StronglySorted_sublist {A} (R : relation A) (l1 l2 : list A) :
  l1 `sublist_of` l2 -> StronglySorted R l2 -> StronglySorted R l1.
Proof.
  induction 1 as [|x l1 l2 Hsub IH|x l1 l2 Hsub IH]; intros Hs.
  - constructor.
  - apply StronglySorted_inv in Hs as [Hs Hall]. constructor; [auto|].
    apply Forall_forall. intros y Hy.
    eapply Forall_forall in Hall; [exact Hall|]. eapply elem_of_sublist; eauto.
  - apply StronglySorted_inv in Hs as [Hs _]. auto.
Qed.

Lemma seqZ_StronglySorted (n : nat) : forall m len,
  Z.to_nat len = n -> StronglySorted Z.lt (seqZ m len).
Proof.
  induction n as [|n IH]; intros m len Hlen.
  - rewrite seqZ_nil by lia. constructor.
  - rewrite seqZ_cons by lia. constructor; [apply IH; lia|].
    apply Forall_forall. intros d Hd%elem_of_seqZ. lia.
Qed.

Lemma workdays_between_sorted lo hi : StronglySorted Z.lt (later_workdays lo hi).
Proof.
  eapply StronglySorted_sublist; [apply sublist_filter|].
  by eapply seqZ_StronglySorted.
Qed.

Lemma get_upcoming_workdays_eq workdays_ahead :
  datetime.is_date today ->
  let k := Z.to_nat workdays_ahead in
  let ws := later_workdays today datetime._MAXORDINAL in
  get_upcoming_workdays today PA_HOLIDAYS holidays_txt workdays_ahead =
    ((if workday today then [today] else []) ++ take k ws,
     if decide (k <= length ws)%nat then None else Some OverflowError).
Proof.
  intros Htoday. cbv zeta. unfold get_upcoming_workdays, get_today.
  unfold datetime.is_date in Htoday.
  rewrite (upcoming_loop_spec _ today 0 workdays_ahead ltac:(lia) eq_refl).
  cbv zeta. rewrite Z.sub_0_r. reflexivity.
Qed.

(** Every date of the generator is [today] or later, and a workday. *)
Lemma get_upcoming_workdays_elem workdays_ahead d :
  datetime.is_date today ->
  d ∈ fst (get_upcoming_workdays today PA_HOLIDAYS holidays_txt workdays_ahead) ->
  today <= d /\ workday d = true.
Proof.
  intros Htoday. rewrite get_upcoming_workdays_eq by done. cbv zeta. simpl.
  rewrite elem_of_app. intros [Hd|Hd].
  - destruct (workday today) eqn:Hw; [|by apply elem_of_nil in Hd].
    apply list_elem_of_singleton in Hd as ->. split; [lia|done].
  - eapply elem_of_sublist in Hd; [|apply sublist_take].
    apply elem_of_workdays_between in Hd. split; [lia|tauto].
Qed.

(** When the calendar has fewer than [workdays_ahead] workdays left after
    [today], the generator yields them all and ends in the [OverflowError]
    of the addition that passes [date.max]. *)
Lemma get_upcoming_workdays_overflow workdays_ahead :
  datetime.is_date today ->
  (length (later_workdays today datetime._MAXORDINAL) < Z.to_nat workdays_ahead)%nat ->
  get_upcoming_workdays today PA_HOLIDAYS holidays_txt workdays_ahead
  = ((if workday today then [today] else [])
       ++ later_workdays today datetime._MAXORDINAL,
     Some OverflowError).
Proof.
  intros Htoday Hfew. rewrite get_upcoming_workdays_eq by done. cbv zeta.
  rewrite take_ge by lia. destruct (decide _); [lia|reflexivity].
Qed.

(** C9: with a budget of zero or less the generator yields [today] if it
    is a workday, and nothing else. *)
Theorem get_upcoming_workdays_nonpositive workdays_ahead :
  workdays_ahead <= 0 ->
  get_upcoming_workdays today PA_HOLIDAYS holidays_txt workdays_ahead
  = ((if workday today then [today] else []), None).
Proof.
  intros Hwa. unfold get_upcoming_workdays, get_today.
  rewrite upcoming_loop_eq.
  destruct (Z.ltb_spec 0 workdays_ahead); [lia|]. simpl.
  by rewrite app_nil_r.
Qed.

(** C2: with a budget [workdays_ahead >= 0] and that many workdays left in
    the calendar after [today], the generator yields [today] first exactly
    when it is a workday, then the [workdays_ahead] earliest workdays after
    [today] in ascending order, and ends; no date it yields is a Saturday,
    a Sunday or a holiday. *)
Theorem get_upcoming_workdays_spec workdays_ahead (later : list Z) :
  datetime.is_date today ->
  0 <= workdays_ahead ->
  NoDup later ->
  Z.of_nat (length later) = workdays_ahead ->
  (forall d, d ∈ later ->
             today < d <= datetime._MAXORDINAL /\ workday d = true) ->
  exists rest,
    get_upcoming_workdays today PA_HOLIDAYS holidays_txt workdays_ahead
    = ((if workday today then [today] else []) ++ rest, None)
    /\ (head (fst (get_upcoming_workdays today PA_HOLIDAYS holidays_txt
                                          workdays_ahead)) = Some today
        <-> workday today = true)
    /\ Z.of_nat (length rest) = workdays_ahead
    /\ StronglySorted Z.lt rest
    /\ (forall d, d ∈ rest -> today < d /\ workday d = true)
    /\ (forall d d', d' ∈ rest -> today < d < d' -> workday d = true -> d ∈ rest)
    /\ (forall d,
          d ∈ fst (get_upcoming_workdays today PA_HOLIDAYS holidays_txt
                                         workdays_ahead) ->
          datetime.weekday d <> SAT /\ datetime.weekday d <> SUN
          /\ is_holiday PA_HOLIDAYS holidays_txt d = false).
Proof.
  intros Htoday Hwa Hnodup Hlen Hlater.
  set (ws := later_workdays today datetime._MAXORDINAL).
  set (k := Z.to_nat workdays_ahead).
  assert (Hk : (k <= length ws)%nat).
  { replace k with (length later) by lia.
    apply submseteq_length, NoDup_submseteq; [done|].
    intros d Hd%Hlater. by apply elem_of_workdays_between. }
  assert (Hsorted : StronglySorted Z.lt ws) by apply workdays_between_sorted.
  assert (Hrest : forall d, d ∈ take k ws -> today < d /\ workday d = true).
  { intros d Hd. eapply elem_of_sublist in Hd; [|apply sublist_take].
    apply elem_of_workdays_between in Hd. split; [lia|tauto]. }
  exists (take k ws).
  pose proof (get_upcoming_workdays_eq workdays_ahead Htoday) as Heq.
  cbv zeta in Heq. fold ws k in Heq.
  destruct (decide (k <= length ws)%nat); [|lia].
  split; [exact Heq|]. rewrite Heq. simpl.
  split; [|split; [|split; [|split; [|split]]]].
  - destruct (workday today) eqn:Hw; simpl; [done|].
    split; [|discriminate]. intros Hhd.
    destruct (take k ws) as [|d0 l0] eqn:Htk; [discriminate|].
    injection Hhd as ->.
    destruct (Hrest today) as [? _]; [try rewrite Htk; left|lia].
  - rewrite length_take_le by done. lia.
  - eapply StronglySorted_sublist; [apply sublist_take|done].
  - exact Hrest.
  - intros d d' Hd' Hlt Hw.
    assert (Hin : d ∈ ws).
    { apply elem_of_workdays_between. split; [|done].
      eapply elem_of_sublist in Hd'; [|apply sublist_take].
      apply elem_of_workdays_between in Hd'. lia. }
    rewrite <- (take_drop k ws) in Hin, Hsorted.
    apply elem_of_app in Hin as [Hin|Hin]; [done|].
    pose proof (StronglySorted_app_1_elem_of _ _ _ _ _ Hsorted Hd' Hin). lia.
  - intros d Hd. apply workday_not_weekend_not_holiday.
    apply (get_upcoming_workdays_elem workdays_ahead d Htoday).
    rewrite Heq. exact Hd.
Qed.

End Upcoming.

(** ** Properties of the reconciler *)

Section Reconciler.

Variable today : datetime.date.
Variable PA_HOLIDAYS : datetime.date -> option string.
Variable holidays_txt : list string.

Lemma StronglySorted_le_lt (l : list Z) :
  StronglySorted Z.le l -> NoDup l -> StronglySorted Z.lt l.
Proof.
  induction 1 as [|x l Hl IH Hall]; intros Hnodup; [constructor|].
  apply NoDup_cons in Hnodup as [Hx Hnodup].
  constructor; [by apply IH|].
  apply Forall_forall. intros y Hy.
  eapply Forall_forall in Hall; [|exact Hy].
  assert (x <> y) by (intros ->; done). lia.
Qed.

Lemma sorted_spec (s : gset Z) :
  StronglySorted Z.lt (sorted s) /\ forall d, d ∈ sorted s <-> d ∈ s.
Proof.
  unfold sorted.
  assert (Hperm : merge_sort Z.le (elements s) ≡ₚ elements s)
    by apply merge_sort_Permutation.
  assert (Hnodup : NoDup (merge_sort Z.le (elements s)))
    by (rewrite Hperm; apply NoDup_elements).
  assert (Hle : StronglySorted Z.le (merge_sort Z.le (elements s)))
    by (apply StronglySorted_merge_sort; apply _).
  split.
  - by apply StronglySorted_le_lt.
  - intros d. by rewrite Hperm, elem_of_elements.
Qed.

Lemma titles_to_dates_Ok issues ds :
  titles_to_dates issues = Ok ds ->
  forall o, o ∈ ds <-> exists issue, issue ∈ issues
                                     /\ issue_title_to_date (title issue) = Ok o.
Proof.
  revert ds. induction issues as [|issue issues IH]; simpl; intros ds H o.
  - injection H as <-. split; [by intros ?%elem_of_nil|].
    by intros (? & ?%elem_of_nil & _).
  - destruct (issue_title_to_date (title issue)) as [o1|] eqn:H1; [|discriminate].
    simpl in H. destruct (titles_to_dates issues) as [ds'|]; [|discriminate].
    simpl in H. injection H as <-. rewrite elem_of_cons, (IH ds' eq_refl). split.
    + intros [->|(i & Hi & Ho)]; [exists issue|exists i]; split; auto; by constructor.
    + intros (i & [->|Hi]%elem_of_cons & Ho); [left; congruence|right; eauto].
Qed.

Lemma titles_to_dates_well_titled issues :
  (forall issue, issue ∈ issues -> well_titled issue) ->
  exists ds, titles_to_dates issues = Ok ds.
Proof.
  induction issues as [|issue issues IH]; simpl; intros H; [eauto|].
  destruct IH as [ds ->]; [intros i Hi; apply H; by right|].
  destruct (H issue) as [[d Hd]|Hno]; [by left| |].
  - unfold decodes_to in Hd. rewrite Hd. simpl. eauto.
  - apply issue_title_to_date_unprefixed in Hno.
    rewrite Hno. simpl. eauto.
Qed.

Lemma get_future_dates_without_issues_Ok issues workdays_ahead dates :
  get_future_dates_without_issues today PA_HOLIDAYS holidays_txt issues workdays_ahead
  = Ok dates ->
  exists upcoming ds,
    get_upcoming_workdays today PA_HOLIDAYS holidays_txt workdays_ahead
    = (upcoming, None)
    /\ titles_to_dates issues = Ok ds
    /\ dates = sorted (filter (fun d => Some d ∉ (list_to_set ds : gset (option Z)))
                              (list_to_set upcoming : gset Z)).
Proof.
  unfold get_future_dates_without_issues, consume.
  destruct (get_upcoming_workdays _ _ _ _) as [upcoming [e|]]; simpl; [discriminate|].
  destruct (titles_to_dates issues) as [ds|]; simpl; [|discriminate].
  intros [= <-]. eauto.
Qed.

(** What ends the generator ends the reconciler. *)
Lemma get_future_dates_without_issues_raises issues workdays_ahead yielded e :
  get_upcoming_workdays today PA_HOLIDAYS holidays_txt workdays_ahead
  = (yielded, Some e) ->
  get_future_dates_without_issues today PA_HOLIDAYS holidays_txt issues workdays_ahead
  = Raise e.
Proof.
  intros Hgen. unfold get_future_dates_without_issues, consume.
  rewrite Hgen. reflexivity.
Qed.

(** C1: when no title is corrupt and the generator of upcoming workdays
    runs to its end, the reconciler returns the dates the generator
    yielded that no issue's title decodes to, in strictly ascending order;
    each of them is a workday. *)
Theorem get_future_dates_without_issues_spec issues workdays_ahead upcoming :
  datetime.is_date today ->
  (forall issue, issue ∈ issues -> well_titled issue) ->
  get_upcoming_workdays today PA_HOLIDAYS holidays_txt workdays_ahead
  = (upcoming, None) ->
  exists dates,
    get_future_dates_without_issues today PA_HOLIDAYS holidays_txt
                                    issues workdays_ahead = Ok dates
    /\ StronglySorted Z.lt dates
    /\ NoDup dates
    /\ (forall d, d ∈ dates
                  <-> d ∈ upcoming
                      /\ ~ exists issue, issue ∈ issues /\ decodes_to issue d)
    /\ (forall d, d ∈ dates -> is_workday PA_HOLIDAYS holidays_txt d = true)
    /\ (forall d issue, d ∈ dates -> issue ∈ issues -> ~ decodes_to issue d).
Proof.
  intros Htoday Htitles Hgen.
  destruct (titles_to_dates_well_titled issues Htitles) as [ds Hds].
  unfold get_future_dates_without_issues, consume. rewrite Hgen, Hds. simpl.
  eexists. split; [reflexivity|].
  match goal with |- context [sorted ?s] => destruct (sorted_spec s) as [Hs Hin] end.
  assert (Hmem : forall d,
    d ∈ sorted (filter (fun d => Some d ∉ (list_to_set ds : gset (option Z)))
                       (list_to_set upcoming : gset Z))
    <-> d ∈ upcoming /\ ~ exists issue, issue ∈ issues /\ decodes_to issue d).
  { intros d. rewrite Hin, elem_of_filter, !elem_of_list_to_set.
    rewrite (titles_to_dates_Ok issues ds Hds). unfold decodes_to. tauto. }
  split; [exact Hs|]. split; [|split; [exact Hmem|split]].
  - clear -Hs. induction Hs as [|x l Hl IH Hall]; constructor; [|done].
    intros Hx. eapply Forall_forall in Hall; [|exact Hx]. lia.
  - intros d [Hd _]%Hmem.
    apply (get_upcoming_workdays_elem today PA_HOLIDAYS holidays_txt
             workdays_ahead d Htoday).
    by rewrite Hgen.
  - intros d issue [_ Hd]%Hmem Hi Hdec. apply Hd. eauto.
Qed.

(** C10: no date that the reconciler returns is before [today]. *)
Theorem get_future_dates_without_issues_not_past issues workdays_ahead dates :
  datetime.is_date today ->
  get_future_dates_without_issues today PA_HOLIDAYS holidays_txt issues workdays_ahead
  = Ok dates ->
  forall d, d ∈ dates -> today <= d.
Proof.
  intros Htoday (upcoming & ds & Hgen & _ & ->)%get_future_dates_without_issues_Ok d Hd.
  apply sorted_spec, elem_of_filter in Hd as [_ Hd%elem_of_list_to_set].
  apply (get_upcoming_workdays_elem today PA_HOLIDAYS holidays_txt
           workdays_ahead d Htoday).
  by rewrite Hgen.
Qed.

End Reconciler.

(** ** Properties of the lifecycle actions *)

Section Lifecycle.

Variable today : datetime.date.
Variable PA_HOLIDAYS : datetime.date -> option string.
Variable holidays_txt : list string.
Variable tracker_fails : list event -> bool.

Lemma emits_ret {A} P (a : A) : emits P (ret a).
Proof. intros tr. exists []. by rewrite app_nil_r. Qed.

Lemma emits_lift {A} P (r : result A) : emits P (lift r).
Proof. intros tr. exists []. by rewrite app_nil_r. Qed.

Lemma emits_bind {A B} P (m : prog A) (k : A -> prog B) :
  emits P m -> (forall a, emits P (k a)) -> emits P (bind m k).
Proof.
  intros Hm Hk tr. unfold bind. destruct (Hm tr) as (evs & Heq & Hall).
  destruct (m tr) as [tr' [a|e]]; simpl in Heq; subst tr'.
  - destruct (Hk a (tr ++ evs)) as (evs' & -> & Hall').
    exists (evs ++ evs'). rewrite app_assoc. split; [done|by apply Forall_app].
  - by exists evs.
Qed.

Lemma emits_for_each {A} P (l : list A) (body : A -> prog unit) :
  (forall x, emits P (body x)) -> emits P (for_each l body).
Proof.
  intros Hbody. induction l as [|x l IH]; simpl.
  - apply emits_ret.
  - apply emits_bind; auto.
Qed.

Lemma emits_request_or_log P op msg :
  P op -> P (LogError msg) -> emits P (request_or_log tracker_fails op msg).
Proof.
  intros Hop Hlog tr. unfold request_or_log.
  destruct (tracker_fails (tr ++ [op])); simpl.
  - exists [op; LogError msg]. rewrite <- app_assoc. auto.
  - exists [op]. auto.
Qed.

Lemma close_old_issues_emits issues lifespan :
  emits (fun e => ~ is_create e) (close_old_issues today tracker_fails issues lifespan).
Proof.
  unfold close_old_issues. apply emits_bind; [apply emits_lift|]. intros ls.
  apply emits_for_each. intros issue.
  apply emits_bind; [apply emits_lift|]. intros [d|]; [|apply emits_ret].
  destruct (_ >? _); [|apply emits_ret].
  apply emits_request_or_log; simpl; tauto.
Qed.

Lemma create_scrum_issues_emits dates :
  emits (fun e => ~ is_close e) (for_each dates (create_scrum_issue tracker_fails)).
Proof.
  apply emits_for_each. intros d. unfold create_scrum_issue.
  apply emits_request_or_log; simpl; tauto.
Qed.

(** One turn of the loop of [close_old_issues] on a well-titled issue. *)
Lemma close_turn_spec lifespan issue tr :
  well_titled issue ->
  exists evs,
    (date ← lift (issue_title_to_date (title issue));
     match date with
     | None => ret tt
     | Some date =>
         if today - date >? lifespan
         then request_or_log tracker_fails (EditClosed issue) "Closing issue failed:"
         else ret tt
     end) tr = (tr ++ evs, Ok tt)
    /\ edit_requests evs = if is_old today lifespan issue then [issue] else [].
Proof.
  intros Hissue. unfold is_old, mbind, prog_bind, bind, lift.
  destruct Hissue as [[d Hd]|Hno].
  - unfold decodes_to in Hd. rewrite Hd.
    destruct (today - d >? lifespan) eqn:Hold.
    + unfold request_or_log.
      destruct (tracker_fails (tr ++ [EditClosed issue])).
      * exists [EditClosed issue; LogError "Closing issue failed:"].
        by rewrite <- app_assoc.
      * by exists [EditClosed issue].
    + exists []. by rewrite app_nil_r.
  - apply issue_title_to_date_unprefixed in Hno.
    rewrite Hno. exists []. by rewrite app_nil_r.
Qed.

(** The loop of [close_old_issues] over well-titled issues. *)
Lemma close_loop_spec lifespan issues : forall tr,
  (forall issue, issue ∈ issues -> well_titled issue) ->
  exists evs,
    for_each issues (fun issue =>
      date ← lift (issue_title_to_date (title issue));
      match date with
      | None => ret tt
      | Some date =>
          if today - date >? lifespan
          then request_or_log tracker_fails (EditClosed issue) "Closing issue failed:"
          else ret tt
      end) tr = (tr ++ evs, Ok tt)
    /\ edit_requests evs = filter (fun issue => is_old today lifespan issue = true) issues.
Proof.
  induction issues as [|issue issues IH]; intros tr Htitles.
  - exists []. by rewrite app_nil_r.
  - assert (Hrest : forall i, i ∈ issues -> well_titled i)
      by (intros i Hi; apply Htitles; by right).
    destruct (close_turn_spec lifespan issue tr) as (evs0 & Hturn & Hreq0);
      [apply Htitles; by left|].
    destruct (IH (tr ++ evs0) Hrest) as (evs & Hloop & Hreq).
    exists (evs0 ++ evs). split.
    + cbn [for_each]. unfold bind at 1. rewrite Hturn, Hloop.
      by rewrite app_assoc.
    + unfold edit_requests in *. rewrite omap_app, Hreq0, Hreq, filter_cons.
      destruct (is_old today lifespan issue); by destruct (decide _).
Qed.

(** C7, amended: when no title is corrupt and [lifespan] is a number of
    days that a [timedelta] can hold, [close_old_issues] requests the
    closing of exactly the issues whose title decodes to a date more than
    [lifespan] days before [today], in their order, and returns; an issue
    dated 8 days ago is closed under a lifespan of 7. *)
Theorem close_old_issues_spec issues lifespan tr :
  (forall issue, issue ∈ issues -> well_titled issue) ->
  -999999999 <= lifespan <= 999999999 ->
  exists evs,
    close_old_issues today tracker_fails issues lifespan tr = (tr ++ evs, Ok tt)
    /\ edit_requests evs = filter (fun issue => is_old today lifespan issue = true) issues
    /\ (forall issue,
          issue ∈ edit_requests evs
          <-> issue ∈ issues
              /\ exists d, decodes_to issue d /\ today - d > lifespan)
    /\ (forall issue d,
          issue ∈ issues -> decodes_to issue d -> today - d = 8 -> lifespan = 7 ->
          issue ∈ edit_requests evs).
Proof.
  intros Htitles Hls.
  destruct (close_loop_spec lifespan issues tr Htitles) as (evs & Hloop & Hreq).
  exists evs.
  assert (Hmem : forall issue,
    issue ∈ edit_requests evs
    <-> issue ∈ issues /\ exists d, decodes_to issue d /\ today - d > lifespan).
  { intros issue. rewrite Hreq, list_elem_of_filter. unfold is_old, decodes_to.
    split.
    - intros [Hold Hin]. split; [done|].
      destruct (issue_title_to_date (title issue)) as [[d|]|]; try discriminate.
      exists d. split; [done|]. by apply Z.gtb_gt.
    - intros [Hin (d & -> & Hd)]. split; [|done]. by apply Z.gtb_gt. }
  split; [|split; [exact Hreq|split; [exact Hmem|]]].
  - unfold close_old_issues, get_today, mbind, prog_bind, bind, lift, datetime.timedelta.
    replace ((-999999999 <=? lifespan) && (lifespan <=? 999999999)) with true
      by (symmetry; apply andb_true_intro; split; apply Z.leb_le; lia).
    exact Hloop.
  - intros issue d Hin Hd Hage ->. apply Hmem. split; [done|].
    exists d. split; [done|lia].
Qed.

(** C8: in a run every request to close comes before every request to
    create. *)
Theorem closes_before_creates lifespan workdays_ahead issues :
  let tr := fst (main today PA_HOLIDAYS holidays_txt tracker_fails
                      lifespan workdays_ahead issues []) in
  (exists closes creates,
      tr = closes ++ creates
      /\ Forall (fun e => ~ is_create e) closes
      /\ Forall (fun e => ~ is_close e) creates)
  /\ (forall i j title body issue,
        tr !! i = Some (CreateIssue title body) ->
        tr !! j = Some (EditClosed issue) ->
        (j < i)%nat).
Proof.
  cbv zeta.
  assert (Hsplit : exists closes creates,
    fst (main today PA_HOLIDAYS holidays_txt tracker_fails
              lifespan workdays_ahead issues []) = closes ++ creates
    /\ Forall (fun e => ~ is_create e) closes
    /\ Forall (fun e => ~ is_close e) creates).
  { unfold main, mbind, prog_bind, bind, lift.
    destruct (close_old_issues_emits issues lifespan []) as (closes & Hc & Hcl).
    destruct (close_old_issues today tracker_fails issues lifespan [])
      as [tr1 [[]|e]]; simpl in Hc; subst tr1.
    - destruct (get_future_dates_without_issues _ _ _ _ _) as [dates|e].
      + destruct (create_scrum_issues_emits dates closes) as (creates & Hcr & Hcrl).
        exists closes, creates. done.
      + exists closes, []. simpl. by rewrite app_nil_r.
    - exists closes, []. simpl. by rewrite app_nil_r. }
  split; [exact Hsplit|].
  destruct Hsplit as (closes & creates & -> & Hcl & Hcr).
  intros i j t b issue Hi Hj.
  destruct (decide (i < length closes)%nat) as [Hlt|Hge].
  - rewrite lookup_app_l in Hi by done.
    eapply Forall_lookup_1 in Hcl; [|exact Hi]. simpl in Hcl. tauto.
  - destruct (decide (j < length closes)%nat) as [|Hjge]; [lia|].
    rewrite lookup_app_r in Hj by lia.
    eapply Forall_lookup_1 in Hcr; [|exact Hj]. simpl in Hcr. tauto.
Qed.

(** A corrupt title ends the run: the [ValueError] of [issue_title_to_date]
    is not caught. *)
Lemma issue_title_to_date_raises title e :
  issue_title_to_date title = Raise e -> e = ValueError.
Proof.
  unfold issue_title_to_date, datetime.mkdate.
  destruct (re.pattern_match title) as [[[y m] d]|]; [|discriminate].
  destruct (datetime._check_date_fields _ _ _); simpl; congruence.
Qed.

Lemma close_loop_corrupt lifespan issues : forall tr,
  (exists issue, issue ∈ issues
                 /\ issue_title_to_date (title issue) = Raise ValueError) ->
  snd (for_each issues (fun issue =>
         date ← lift (issue_title_to_date (title issue));
         match date with
         | None => ret tt
         | Some date =>
             if today - date >? lifespan
             then request_or_log tracker_fails (EditClosed issue) "Closing issue failed:"
             else ret tt
         end) tr) = Raise ValueError.
Proof.
  induction issues as [|issue issues IH]; intros tr (bad & Hin & Hbad).
  - by apply elem_of_nil in Hin.
  - cbn [for_each]. unfold bind at 1, mbind at 1, prog_bind at 1, bind at 1, lift at 1.
    destruct (issue_title_to_date (title issue)) as [[d|]|e] eqn:Hd.
    + assert (Htail : exists i, i ∈ issues
                                /\ issue_title_to_date (title i) = Raise ValueError).
      { apply elem_of_cons in Hin as [->|Hin]; [congruence|eauto]. }
      destruct (today - d >? lifespan).
      * unfold request_or_log. destruct (tracker_fails _); by apply IH.
      * by apply IH.
    + assert (Htail : exists i, i ∈ issues
                                /\ issue_title_to_date (title i) = Raise ValueError).
      { apply elem_of_cons in Hin as [->|Hin]; [congruence|eauto]. }
      by apply IH.
    + apply issue_title_to_date_raises in Hd as ->. reflexivity.
Qed.

Lemma corrupt_title_ends_run lifespan workdays_ahead issues issue :
  -999999999 <= lifespan <= 999999999 ->
  issue ∈ issues ->
  issue_title_to_date (title issue) = Raise ValueError ->
  snd (main today PA_HOLIDAYS holidays_txt tracker_fails
            lifespan workdays_ahead issues []) = Raise ValueError.
Proof.
  intros Hls Hin Hbad.
  pose proof (close_loop_corrupt lifespan issues [] (ex_intro _ issue (conj Hin Hbad)))
    as Hloop.
  unfold main, close_old_issues, get_today.
  unfold mbind at 1, prog_bind at 1, bind at 1.
  unfold mbind at 1, prog_bind at 1, bind at 1, lift at 1, datetime.timedelta.
  replace ((-999999999 <=? lifespan) && (lifespan <=? 999999999)) with true
    by (symmetry; apply andb_true_intro; split; apply Z.leb_le; lia).
  destruct (for_each issues _ []) as [tr [[]|e]]; simpl in Hloop; [discriminate|].
  injection Hloop as ->. reflexivity.
Qed.

End Lifecycle.

(** ** The scenarios, the witnesses and the counterexamples *)

Lemma title_roundtrip_witness :
  datetime.is_date 738950
  /\ scrum_title 738950 = "2024-03-05: e-scrum for Tuesday, March 5, 2024"
  /\ issue_title_to_date (scrum_title 738950) = Ok (Some 738950).
Proof.
  split; [unfold datetime.is_date, datetime._MAXORDINAL; lia|].
  split; [reflexivity|].
  apply (title_roundtrip 738950). unfold datetime.is_date, datetime._MAXORDINAL; lia.
Defined.

Lemma issue_title_to_date_no_date_witness :
  issue_title_to_date "2024-02-30: bad" = Raise ValueError.
Proof.
  apply (proj2 (issue_title_to_date_no_date "2024-02-30: bad") "2024" "02" "30").
  - exists " bad". repeat split; reflexivity.
  - reflexivity.
Defined.

Lemma is_holiday_by_suffix_iff_witness :
  (forall name, new_year_2022 738155 = Some name -> observed_at_end_only name)
  /\ is_holiday_by_suffix new_year_2022 holidays_file 738155
  /\ is_holiday new_year_2022 holidays_file 738155 = true.
Proof.
  assert (Hname : forall name,
             new_year_2022 738155 = Some name -> observed_at_end_only name).
  { intros name [= <-]. exists "New Year's Day".
    split; [reflexivity|right; reflexivity]. }
  assert (Hsuffix : is_holiday_by_suffix new_year_2022 holidays_file 738155).
  { exists "New Year's Day (Observed)". split; [reflexivity|].
    apply (bool_decide_unpack _). vm_compute. exact I. }
  split; [exact Hname|]. split; [exact Hsuffix|].
  exact (proj2 (proj1 (is_holiday_by_suffix_iff new_year_2022 holidays_file
                         738155) Hname) Hsuffix).
Defined.

(** The holiday of the scenario, and the same holiday observed on the
    Friday before: the marker is removed and the name is found. *)
Example is_holiday_new_year :
  is_holiday new_year holidays_file 739252 = true.
Proof. vm_compute. reflexivity. Qed.

Example is_holiday_observed :
  is_holiday (fun d => if d =? 738155 then Some "New Year's Day (Observed)" else None)
             holidays_file 738155 = true.
Proof. vm_compute. reflexivity. Qed.

(** The form of the names matters. A calendar that joins the names of two
    holidays of one day, as calendars of other jurisdictions do, has
    [" (Observed)"] inside a name and not at its end; with that name in the
    allow-list as it is, the suffix rule keeps the name and finds it,
    [is_holiday] removes the marker and does not. *)
Example marker_inside_a_name :
  ~ (is_holiday two_names two_names_txt christmas_eve_2021 = true
     <-> is_holiday_by_suffix two_names two_names_txt christmas_eve_2021).
Proof.
  intros [_ H].
  assert (Hcode : is_holiday two_names two_names_txt christmas_eve_2021 = false)
    by (vm_compute; reflexivity).
  rewrite H in Hcode; [discriminate|].
  exists "Christmas Day (Observed); Christmas Eve". split; [reflexivity|].
  apply (bool_decide_unpack _). vm_compute. exact I.
Qed.

Lemma get_upcoming_workdays_nonpositive_witness :
  get_upcoming_workdays new_years_eve_2024 new_year holidays_file (-1)
  = ([new_years_eve_2024], None).
Proof.
  apply (get_upcoming_workdays_nonpositive new_years_eve_2024 new_year holidays_file (-1)).
  lia.
Defined.

Lemma get_upcoming_workdays_spec_witness :
  exists rest,
    get_upcoming_workdays new_years_eve_2024 new_year holidays_file 2
    = ([new_years_eve_2024] ++ rest, None)
    /\ Z.of_nat (length rest) = 2.
Proof.
  destruct (get_upcoming_workdays_spec new_years_eve_2024 new_year holidays_file
              2 [739253; 739254])
    as (rest & Heq & _ & Hlen & _).
  - unfold datetime.is_date, datetime._MAXORDINAL, new_years_eve_2024. lia.
  - lia.
  - apply (bool_decide_unpack _). vm_compute. exact I.
  - reflexivity.
  - intros d Hd. unfold new_years_eve_2024, datetime._MAXORDINAL.
    repeat (apply elem_of_cons in Hd as [->|Hd]);
      [split; [lia|vm_compute; reflexivity]..|by apply elem_of_nil in Hd].
  - exists rest. split; [exact Heq|exact Hlen].
Defined.

(** The scenario itself: New Year's Day is skipped. *)
Example get_upcoming_workdays_new_year :
  get_upcoming_workdays new_years_eve_2024 new_year holidays_file 2
  = ([739251; 739253; 739254], None).
Proof. vm_compute. reflexivity. Qed.

Lemma issue_march_4_decodes : decodes_to issue_march_4 738949.
Proof. reflexivity. Qed.

Lemma issue_january_2_decodes : decodes_to issue_january_2 739253.
Proof. reflexivity. Qed.

Lemma issue_random_well_titled : well_titled issue_random.
Proof.
  right. intros (y & m & d & H%pattern_match_iff). discriminate H.
Qed.

(** The scenario of the random title: it is skipped, not an error. *)
Example issue_random_no_date : issue_title_to_date (title issue_random) = Ok None.
Proof. reflexivity. Qed.

Example reconcile_new_year :
  get_future_dates_without_issues new_years_eve_2024 new_year holidays_file
    [issue_january_2; issue_random] 2
  = Ok [739251; 739254].
Proof. vm_compute. reflexivity. Qed.

Example run_march_12 :
  main march_12_2024 no_holiday [] never_fails 7 2 [issue_march_4; issue_random] []
  = ([EditClosed issue_march_4;
      CreateIssue "2024-03-12: e-scrum for Tuesday, March 12, 2024" scrum_body;
      CreateIssue "2024-03-13: e-scrum for Wednesday, March 13, 2024" scrum_body;
      CreateIssue "2024-03-14: e-scrum for Thursday, March 14, 2024" scrum_body],
     Ok tt).
Proof. vm_compute. reflexivity. Qed.

(** The scenario of the corrupt title: the run ends in the [ValueError],
    before any request. *)
Example run_corrupt :
  main march_12_2024 no_holiday [] never_fails 7 2 [issue_corrupt; issue_march_4] []
  = ([], Raise ValueError).
Proof. vm_compute. reflexivity. Qed.

Lemma get_future_dates_without_issues_spec_witness :
  exists dates,
    get_future_dates_without_issues new_years_eve_2024 new_year holidays_file
      [issue_january_2; issue_random] 2 = Ok dates
    /\ NoDup dates.
Proof.
  destruct (get_future_dates_without_issues_spec new_years_eve_2024 new_year
              holidays_file [issue_january_2; issue_random] 2 [739251; 739253; 739254])
    as (dates & Heq & _ & Hnodup & _).
  - unfold datetime.is_date, datetime._MAXORDINAL, new_years_eve_2024. lia.
  - intros issue Hi.
    repeat (apply elem_of_cons in Hi as [->|Hi]); [| |by apply elem_of_nil in Hi].
    + left. exists 739253. exact issue_january_2_decodes.
    + exact issue_random_well_titled.
  - exact get_upcoming_workdays_new_year.
  - exists dates. split; [exact Heq|exact Hnodup].
Defined.

Lemma get_future_dates_without_issues_not_past_witness :
  new_years_eve_2024 <= 739254.
Proof.
  apply (get_future_dates_without_issues_not_past new_years_eve_2024 new_year
           holidays_file [issue_january_2; issue_random] 2 [739251; 739254]).
  - unfold datetime.is_date, datetime._MAXORDINAL, new_years_eve_2024. lia.
  - exact reconcile_new_year.
  - right. left.
Defined.

Lemma close_old_issues_spec_witness :
  exists evs,
    close_old_issues march_12_2024 never_fails [issue_march_4; issue_random] 7 []
    = ([] ++ evs, Ok tt)
    /\ issue_march_4 ∈ edit_requests evs.
Proof.
  destruct (close_old_issues_spec march_12_2024 never_fails
              [issue_march_4; issue_random] 7 [])
    as (evs & Heq & _ & _ & Hscenario).
  - intros issue Hi.
    repeat (apply elem_of_cons in Hi as [->|Hi]); [| |by apply elem_of_nil in Hi].
    + left. exists 738949. exact issue_march_4_decodes.
    + exact issue_random_well_titled.
  - lia.
  - exists evs. split; [exact Heq|].
    apply (Hscenario issue_march_4 738949);
      [left|exact issue_march_4_decodes|reflexivity|reflexivity].
Defined.

(** It fails when a corrupt title comes before an old issue: the
    [ValueError] ends the run before the old issue is reached; and when
    [lifespan] is beyond what a [timedelta] holds: the [OverflowError] ends
    the run before the loop. *)
Lemma close_old_issues_counterexample :
  ~ closes_exactly_the_old march_12_2024 never_fails [issue_corrupt; issue_march_4] 7
  /\ ~ closes_exactly_the_old march_12_2024 never_fails [issue_march_4] (-1000000000).
Proof.
  split; intros H; vm_compute in H; discriminate H.
Qed.

Lemma closes_before_creates_witness : (0 < 1)%nat.
Proof.
  apply (proj2 (closes_before_creates march_12_2024 no_holiday [] never_fails 7 2
                  [issue_march_4; issue_random])
           1%nat 0%nat "2024-03-12: e-scrum for Tuesday, March 12, 2024" scrum_body
           issue_march_4);
    rewrite run_march_12; reflexivity.
Defined.

(** * Part IV: further properties *)

(** ** The allow-list *)

Section AllowList.

Lemma rstrip_cons c s :
  pystr.isspace c = false -> pystr.rstrip (String c s) = String c (pystr.rstrip s).
Proof. intros Hc. simpl. rewrite Hc. by destruct (pystr.rstrip s). Qed.

Lemma rstrip_idemp s : pystr.rstrip (pystr.rstrip s) = pystr.rstrip s.
Proof.
  induction s as [|c s IH]; [reflexivity|]. simpl.
  destruct (pystr.rstrip s) as [|c2 r] eqn:Hr.
  - destruct (pystr.isspace c) eqn:Hc; [reflexivity|]. simpl. by rewrite Hc.
  - change (pystr.rstrip (String c (String c2 r))) with
      (match pystr.rstrip (String c2 r) with
       | EmptyString => if pystr.isspace c then EmptyString else String c EmptyString
       | r' => String c r'
       end).
    by rewrite IH.
Qed.

Lemma lstrip_head s :
  pystr.lstrip s = EmptyString
  \/ exists c s', pystr.lstrip s = String c s' /\ pystr.isspace c = false.
Proof.
  induction s as [|c s IH]; simpl; [by left|].
  destruct (pystr.isspace c) eqn:Hc; [exact IH|]. right. eauto.
Qed.

Lemma strip_idemp s : pystr.strip (pystr.strip s) = pystr.strip s.
Proof.
  unfold pystr.strip. destruct (lstrip_head s) as [->|(c & s' & -> & Hc)]; [reflexivity|].
  rewrite (rstrip_cons c s' Hc). simpl pystr.lstrip. rewrite Hc.
  rewrite (rstrip_cons c _ Hc). by rewrite rstrip_idemp.
Qed.

Lemma elem_of_get_holidays txt name :
  name ∈ get_holidays txt
  <-> name <> EmptyString /\ pystr.startswith name "#" = false
      /\ exists line, line ∈ txt /\ pystr.strip line = name.
Proof.
  unfold get_holidays. rewrite elem_of_list_to_set, list_elem_of_filter.
  rewrite list_elem_of_In, in_map_iff. split.
  - intros [[Hne Hhash] (line & Hs & Hl%list_elem_of_In)]. eauto.
  - intros (Hne & Hhash & line & Hl%list_elem_of_In & Hs). eauto.
Qed.

(** X1: a name of the allow-list is a line of the file with the white space
    around it removed; it is not empty, has no white space at either end
    and does not start with [#]. *)
Theorem get_holidays_names txt name :
  name ∈ get_holidays txt ->
  name <> EmptyString
  /\ pystr.strip name = name
  /\ pystr.startswith name "#" = false
  /\ exists line, line ∈ txt /\ pystr.strip line = name.
Proof.
  intros (Hne & Hhash & line & Hline & <-)%elem_of_get_holidays.
  split; [done|]. split; [apply strip_idemp|]. split; [done|]. eauto.
Qed.

Lemma get_holidays_cons_skip txt line :
  blank_or_comment line -> get_holidays (line :: txt) = get_holidays txt.
Proof.
  intros Hline. apply set_eq. intros name. rewrite !elem_of_get_holidays.
  split.
  - intros (Hne & Hhash & l & [->|Hl]%elem_of_cons & <-).
    + destruct Hline as [Hb|Hc]; [done|congruence].
    + eauto.
  - intros (Hne & Hhash & l & Hl & <-). split; [done|]. split; [done|].
    exists l. split; [by right|done].
Qed.

Lemma get_holidays_app_skip before line after :
  blank_or_comment line ->
  get_holidays (before ++ line :: after) = get_holidays (before ++ after).
Proof.
  intros Hline. apply set_eq. intros name. rewrite !elem_of_get_holidays.
  split.
  - intros (Hne & Hhash & l & Hl & <-). split; [done|]. split; [done|].
    exists l. split; [|done].
    apply elem_of_app in Hl as [Hl|[->|Hl]%elem_of_cons].
    + apply elem_of_app. by left.
    + destruct Hline as [Hb|Hc]; [done|congruence].
    + apply elem_of_app. by right.
  - intros (Hne & Hhash & l & Hl & <-). split; [done|]. split; [done|].
    exists l. split; [|done].
    apply elem_of_app in Hl as [Hl|Hl]; apply elem_of_app; [by left|].
    right. by right.
Qed.

(** X2: a blank line or a comment line, indented or not, anywhere in the
    file changes neither the allow-list nor the holidays nor the workdays:
    the file gives the same with the line and without it. *)
Theorem comment_lines_are_skipped before line after PA_HOLIDAYS d :
  blank_or_comment line ->
  get_holidays (before ++ line :: after) = get_holidays (before ++ after)
  /\ is_holiday PA_HOLIDAYS (before ++ line :: after) d
     = is_holiday PA_HOLIDAYS (before ++ after) d
  /\ is_workday PA_HOLIDAYS (before ++ line :: after) d
     = is_workday PA_HOLIDAYS (before ++ after) d.
Proof.
  intros Hline.
  pose proof (get_holidays_app_skip before line after Hline) as Heq.
  unfold is_workday, is_holiday. rewrite Heq. done.
Qed.

Lemma get_holidays_all_skipped txt :
  (forall line, line ∈ txt -> blank_or_comment line) -> get_holidays txt = ∅.
Proof.
  induction txt as [|line txt IH]; intros Hall; [reflexivity|].
  rewrite get_holidays_cons_skip by (apply Hall; by left).
  apply IH. intros l Hl. apply Hall. by right.
Qed.

(** X3: with a file of blank lines and comments only (an empty file too)
    no date is a holiday, whatever the jurisdiction's calendar says, and
    the workdays are the days from Monday to Friday. *)
Theorem no_allow_list_no_holiday txt PA_HOLIDAYS d :
  (forall line, line ∈ txt -> blank_or_comment line) ->
  is_holiday PA_HOLIDAYS txt d = false
  /\ (is_workday PA_HOLIDAYS txt d = true <-> 0 <= datetime.weekday d <= 4).
Proof.
  intros Hall. pose proof (get_holidays_all_skipped txt Hall) as Hempty.
  assert (Hhol : is_holiday PA_HOLIDAYS txt d = false).
  { unfold is_holiday. rewrite Hempty. apply bool_decide_eq_false. set_solver. }
  split; [exact Hhol|].
  unfold is_workday. rewrite Hhol, andb_true_r, negb_true_iff, bool_decide_eq_false.
  unfold WEEKEND, SAT, SUN. rewrite !elem_of_cons, elem_of_nil.
  unfold datetime.weekday.
  pose proof (Z.mod_pos_bound (d + 6) 7 ltac:(lia)). lia.
Qed.

Lemma prefix_observed_false c rest :
  (c <> " "%char \/ String.prefix "(Observed)" rest = false) ->
  String.prefix " (Observed)" (String c rest) = false.
Proof.
  intros H. change (String.prefix " (Observed)" (String c rest))
    with (if ascii_dec " " c then String.prefix "(Observed)" rest else false).
  destruct (ascii_dec " " c) as [<-|]; [|reflexivity].
  destruct H as [H|H]; [done|exact H].
Qed.

Lemma prefix_paren_false rest :
  match rest with String "(" _ => False | _ => True end ->
  String.prefix "(Observed)" rest = false.
Proof.
  destruct rest as [|c rest]; [reflexivity|]. intros Hc.
  change (String.prefix "(Observed)" (String c rest))
    with (if ascii_dec "(" c then String.prefix "Observed)" rest else false).
  destruct (ascii_dec "(" c) as [<-|]; [done|reflexivity].
Qed.

(** In a name without parenthesis the marker is found at the end only. *)
Lemma replace_observed name : forall suffix,
  no_paren name = true ->
  suffix = EmptyString \/ suffix = " (Observed)" ->
  pystr.replace (name +:+ suffix) " (Observed)" "" = name.
Proof.
  unfold pystr.replace.
  induction name as [|c name IH]; intros suffix Hname Hsuffix.
  - destruct Hsuffix as [->| ->]; reflexivity.
  - simpl in Hname. apply andb_prop in Hname as [Hc%negb_true_iff Hname].
    change (String c name +:+ suffix) with (String c (name +:+ suffix)).
    cbn [pystr.replace_from].
    rewrite prefix_observed_false.
    + f_equal. by apply IH.
    + right. apply prefix_paren_false.
      destruct name as [|c2 name].
      * destruct Hsuffix as [->| ->]; exact I.
      * change (String c2 name +:+ suffix) with (String c2 (name +:+ suffix)).
        simpl in Hname. apply andb_prop in Hname as [Hc2%negb_true_iff _].
        destruct (Ascii.eqb_spec c2 "(") as [->|Hne]; [discriminate|].
        destruct c2 as [[] [] [] [] [] [] [] []]; try exact I. by destruct Hne.
Qed.

(** X17: on a date whose official name is a name without parenthesis, or
    such a name followed by [" (Observed)"], the date is a holiday exactly
    when the name is in the allow-list: a holiday and its observed day go
    together. *)
Theorem observed_holiday_follows_the_holiday txt PA_HOLIDAYS d name :
  no_paren name = true ->
  PA_HOLIDAYS d = Some name \/ PA_HOLIDAYS d = Some (name +:+ " (Observed)") ->
  (is_holiday PA_HOLIDAYS txt d = true <-> name ∈ get_holidays txt).
Proof.
  intros Hname Hd. unfold is_holiday. rewrite bool_decide_eq_true.
  destruct Hd as [-> | ->]; simpl.
  - rewrite <- (replace_observed name EmptyString Hname) at 2 by (by left).
    replace (name +:+ EmptyString) with name; [done|].
    clear. induction name as [|c name IH]; [reflexivity|].
    change (String c name +:+ EmptyString) with (String c (name +:+ EmptyString)).
    by rewrite <- IH.
  - by rewrite (replace_observed name " (Observed)" Hname) by (by right).
Qed.

End AllowList.

Lemma get_holidays_names_witness :
  pystr.strip "New Year's Day" = "New Year's Day".
Proof.
  apply (get_holidays_names holidays_file "New Year's Day").
  apply (bool_decide_unpack _). vm_compute. exact I.
Defined.

Lemma comment_lines_are_skipped_witness :
  blank_or_comment "   # a comment"
  /\ is_holiday new_year
       (take 2 holidays_file ++ "   # a comment" :: drop 2 holidays_file) 739252
     = is_holiday new_year (take 2 holidays_file ++ drop 2 holidays_file) 739252.
Proof.
  assert (Hline : blank_or_comment "   # a comment") by (right; reflexivity).
  split; [exact Hline|].
  apply (comment_lines_are_skipped (take 2 holidays_file) "   # a comment"
           (drop 2 holidays_file) new_year 739252 Hline).
Defined.

Lemma observed_holiday_follows_the_holiday_witness :
  is_holiday (fun d => if d =? 738155 then Some ("New Year's Day" +:+ " (Observed)")
                       else None)
             holidays_file 738155 = true.
Proof.
  apply (observed_holiday_follows_the_holiday holidays_file _ 738155 "New Year's Day").
  - reflexivity.
  - right. reflexivity.
  - apply (bool_decide_unpack _). vm_compute. exact I.
Defined.

Lemma no_allow_list_no_holiday_witness :
  is_holiday new_year ["# nothing"; "   "] 739252 = false.
Proof.
  apply (no_allow_list_no_holiday ["# nothing"; "   "] new_year 739252).
  intros line Hline.
  repeat (apply elem_of_cons in Hline as [->|Hline]);
    [right; reflexivity|left; reflexivity|by apply elem_of_nil in Hline].
Defined.

(** ** Titles, read and written *)

Section Titles.

Import datetime.










(** X5: the decoder reads the start of the title only: text added after a
    title that has the date prefix changes neither the date nor the
    [ValueError]. *)
Theorem text_after_the_date_is_ignored title more :
  issue_title_to_date title <> Ok None ->
  issue_title_to_date (title +:+ more) = issue_title_to_date title.
Proof.
  unfold issue_title_to_date. intros Hdated.
  destruct (re.pattern_match title) as [[[y m] dd]|] eqn:Hp; [|done].
  assert (Hp' : re.pattern_match (title +:+ more) = Some (y, m, dd)).
  { apply pattern_match_iff.
    apply pattern_match_iff in Hp as (rest & -> & Hrest).
    exists (rest +:+ more). split; [|exact Hrest].
    by rewrite !append_assoc. }
  by rewrite Hp'.
Qed.

End Titles.


Lemma text_after_the_date_is_ignored_witness :
  issue_title_to_date ("2024-03-04:" +:+ " moved to Tuesday")
  = issue_title_to_date "2024-03-04:".
Proof.
  apply (text_after_the_date_is_ignored "2024-03-04:" " moved to Tuesday").
  discriminate.
Defined.

(** ** The generator and the reconciler, further *)

Section ReconcilerFurther.

Variable today : datetime.date.
Variable PA_HOLIDAYS : datetime.date -> option string.
Variable holidays_txt : list string.

Local Abbreviation upcoming_workdays :=
  (get_upcoming_workdays today PA_HOLIDAYS holidays_txt).
Local Abbreviation reconcile :=
  (get_future_dates_without_issues today PA_HOLIDAYS holidays_txt).

Lemma get_upcoming_workdays_is_date workdays_ahead d :
  datetime.is_date today ->
  d ∈ fst (upcoming_workdays workdays_ahead) -> datetime.is_date d.
Proof.
  intros Htoday. rewrite get_upcoming_workdays_eq by done. cbv zeta. simpl.
  rewrite elem_of_app. intros [Hd|Hd].
  - destruct (is_workday _ _ today); [|by apply elem_of_nil in Hd].
    by apply list_elem_of_singleton in Hd as ->.
  - eapply elem_of_sublist in Hd; [|apply sublist_take].
    apply elem_of_workdays_between in Hd. unfold datetime.is_date in *. lia.
Qed.

Lemma get_upcoming_workdays_length workdays_ahead :
  datetime.is_date today ->
  (length (fst (upcoming_workdays workdays_ahead)) <= S (Z.to_nat workdays_ahead))%nat.
Proof.
  intros Htoday. rewrite get_upcoming_workdays_eq by done. cbv zeta. simpl.
  rewrite length_app, length_take.
  destruct (is_workday _ _ today); simpl; lia.
Qed.

(** X6: a larger budget only adds later dates: what the generator yields
    for [workdays_ahead] is the start of what it yields for any larger
    budget. *)
Theorem get_upcoming_workdays_grows workdays_ahead more :
  datetime.is_date today ->
  workdays_ahead <= more ->
  fst (upcoming_workdays workdays_ahead) `prefix_of` fst (upcoming_workdays more).
Proof.
  intros Htoday Hle. rewrite !get_upcoming_workdays_eq by done. cbv zeta. simpl.
  apply prefix_app.
  replace (Z.to_nat more)
    with (Z.to_nat workdays_ahead + (Z.to_nat more - Z.to_nat workdays_ahead))%nat by lia.
  rewrite <- take_take_drop. by eexists.
Qed.

Lemma titles_to_dates_eq issues :
  titles_to_dates issues =
    if forallb well_titledb issues then Ok (map decoded issues) else Raise ValueError.
Proof.
  induction issues as [|issue issues IH]; [reflexivity|].
  simpl. unfold well_titledb at 1, decoded at 1.
  destruct (issue_title_to_date (title issue)) as [o|e] eqn:Hd; simpl.
  - rewrite IH. by destruct (forallb well_titledb issues).
  - by apply issue_title_to_date_raises in Hd as ->.
Qed.

(** The reconciler depends on the issues through two things only: whether
    a title is corrupt, and the set of the dates that the titles decode
    to. *)
Lemma reconcile_same_dates issues issues' workdays_ahead :
  forallb well_titledb issues = forallb well_titledb issues' ->
  (forall d, Some d ∈ map decoded issues <-> Some d ∈ map decoded issues') ->
  reconcile issues workdays_ahead = reconcile issues' workdays_ahead.
Proof.
  intros Hok Hsame. unfold get_future_dates_without_issues.
  destruct (consume _) as [upcoming|e]; simpl; [|reflexivity].
  rewrite !titles_to_dates_eq, <- Hok.
  destruct (forallb well_titledb issues); simpl; [|reflexivity].
  do 2 f_equal. apply set_eq. intros d.
  rewrite !elem_of_filter, !elem_of_list_to_set, Hsame. done.
Qed.

Lemma forallb_Permutation {A} (f : A -> bool) (l l' : list A) :
  l ≡ₚ l' -> forallb f l = forallb f l'.
Proof.
  induction 1 as [|x l l' _ IH|x y l|l l' l'' _ IH1 _ IH2]; simpl.
  - reflexivity.
  - by rewrite IH.
  - by destruct (f x), (f y).
  - by rewrite IH1.
Qed.

(** X7: the reconciler does not depend on the order in which the tracker
    lists the issues, also when a title is corrupt. *)
Theorem reconcile_any_order issues issues' workdays_ahead :
  issues ≡ₚ issues' ->
  get_future_dates_without_issues today PA_HOLIDAYS holidays_txt issues workdays_ahead
  = get_future_dates_without_issues today PA_HOLIDAYS holidays_txt issues' workdays_ahead.
Proof.
  intros Hperm. apply reconcile_same_dates.
  - by apply forallb_Permutation.
  - intros d. change (map decoded) with (fmap (M:=list) decoded).
    by rewrite Hperm.
Qed.

Lemma reconcile_same_upcoming_dates issues issues' workdays_ahead :
  forallb well_titledb issues = forallb well_titledb issues' ->
  (forall d, d ∈ fst (upcoming_workdays workdays_ahead) ->
             (Some d ∈ map decoded issues <-> Some d ∈ map decoded issues')) ->
  reconcile issues workdays_ahead = reconcile issues' workdays_ahead.
Proof.
  intros Hok Hsame. unfold get_future_dates_without_issues, consume.
  destruct (get_upcoming_workdays _ _ _ _) as [upcoming [e|]]; simpl in *;
    [reflexivity|].
  rewrite !titles_to_dates_eq, <- Hok.
  destruct (forallb well_titledb issues); simpl; [|reflexivity].
  do 2 f_equal. apply set_eq. intros d.
  rewrite !elem_of_filter, !elem_of_list_to_set.
  split; intros [Hfree Hd]; (split; [|done]); by rewrite (Hsame d Hd) in *.
Qed.

(** X18: an issue for a past day, or for a day that is no workday, does
    not count: the reconciler returns the same with it and without it. *)
Theorem reconcile_ignores_other_days before issue after workdays_ahead d :
  datetime.is_date today ->
  decodes_to issue d ->
  d < today \/ is_workday PA_HOLIDAYS holidays_txt d = false ->
  reconcile (before ++ issue :: after) workdays_ahead
  = reconcile (before ++ after) workdays_ahead.
Proof.
  intros Htoday Hdec Hother. unfold decodes_to in Hdec.
  apply reconcile_same_upcoming_dates.
  - rewrite !forallb_app. simpl. unfold well_titledb at 2. by rewrite Hdec.
  - intros d' Hd'. rewrite !map_app. simpl map. unfold decoded at 2. rewrite Hdec.
    rewrite !elem_of_app, elem_of_cons. split.
    + intros [?|[[= ->]|?]]; [by left| |by right].
      destruct (get_upcoming_workdays_elem today PA_HOLIDAYS holidays_txt
                  workdays_ahead d Htoday Hd') as [Hle Hw].
      destruct Hother; [lia|congruence].
    + intros [?|?]; [by left|right; by right].
Qed.

Lemma scrum_title_decodes d :
  datetime.is_date d -> issue_title_to_date (scrum_title d) = Ok (Some d).
Proof.
  intros Hd.
  destruct (isoformat_prefixed d (" e-scrum for " +:+ strftime_long d) Hd)
    as (y & m & dd & Hp & Hmk).
  apply pattern_match_iff in Hp.
  unfold issue_title_to_date, scrum_title.
  change (": e-scrum for " +:+ strftime_long d)
    with (":" +:+ " e-scrum for " +:+ strftime_long d).
  rewrite Hp, Hmk. reflexivity.
Qed.

Lemma reconcile_Ok issues workdays_ahead dates :
  reconcile issues workdays_ahead = Ok dates ->
  exists upcoming,
    upcoming_workdays workdays_ahead = (upcoming, None)
    /\ forallb well_titledb issues = true
    /\ dates = sorted (filter (fun d => Some d ∉ (list_to_set (map decoded issues)
                                                    : gset (option Z)))
                              (list_to_set upcoming : gset Z)).
Proof.
  unfold get_future_dates_without_issues, consume.
  destruct (get_upcoming_workdays _ _ _ _) as [upcoming [e|]]; simpl; [discriminate|].
  rewrite titles_to_dates_eq.
  destruct (forallb well_titledb issues); simpl; [|discriminate].
  intros [= <-]. eauto.
Qed.

(** X9: once the issues that the reconciler asked for exist, it asks for
    nothing: called again on the same day with the old issues and the new
    ones, under whatever numbers the tracker gave them, it returns the
    empty list. *)
Theorem reconcile_again_is_empty issues workdays_ahead dates (numbering : Z -> Z) :
  datetime.is_date today ->
  reconcile issues workdays_ahead = Ok dates ->
  reconcile (issues ++ map (fun d => scrum_issue (numbering d) d) dates) workdays_ahead
  = Ok [].
Proof.
  intros Htoday Hfirst.
  destruct (reconcile_Ok issues workdays_ahead dates Hfirst)
    as (upcoming & Hgen & Hok & Hdates).
  assert (Hin : forall d, d ∈ dates
                          <-> d ∈ upcoming /\ Some d ∉ map decoded issues).
  { intros d. rewrite Hdates. rewrite (proj2 (sorted_spec _) d).
    rewrite elem_of_filter, !elem_of_list_to_set. tauto. }
  assert (Hnew : forall d, d ∈ dates ->
                           issue_title_to_date (scrum_title d) = Ok (Some d)).
  { intros d [Hd _]%Hin. apply scrum_title_decodes.
    apply (get_upcoming_workdays_is_date workdays_ahead d Htoday).
    by rewrite Hgen. }
  unfold get_future_dates_without_issues, consume. rewrite Hgen. simpl.
  rewrite titles_to_dates_eq, forallb_app, Hok. simpl.
  assert (Hok' : forallb well_titledb
                   (map (fun d => scrum_issue (numbering d) d) dates) = true).
  { apply forallb_forall. intros issue (d & <- & Hd%list_elem_of_In)%in_map_iff.
    unfold well_titledb, scrum_issue. simpl. by rewrite (Hnew d Hd). }
  rewrite Hok'. simpl. f_equal.
  match goal with |- sorted ?s = _ => assert (Hempty : s = ∅) end.
  { apply elem_of_equiv_empty_L. intros d [Hfree Hd]%elem_of_filter.
    apply elem_of_list_to_set in Hd. apply Hfree, elem_of_list_to_set.
    rewrite map_app, elem_of_app.
    destruct (decide (Some d ∈ map decoded issues)) as [|Hno]; [by left|right].
    assert (Hdd : d ∈ dates) by (by apply Hin).
    apply list_elem_of_In, in_map_iff.
    exists (scrum_issue (numbering d) d). split.
    - unfold decoded, scrum_issue. simpl. by rewrite (Hnew d Hdd).
    - apply in_map_iff. exists d. split; [done|by apply list_elem_of_In]. }
  rewrite Hempty. unfold sorted. by rewrite elements_empty.
Qed.

End ReconcilerFurther.

Lemma get_upcoming_workdays_grows_witness :
  fst (get_upcoming_workdays new_years_eve_2024 new_year holidays_file 2)
    `prefix_of`
  fst (get_upcoming_workdays new_years_eve_2024 new_year holidays_file 3).
Proof.
  apply (get_upcoming_workdays_grows new_years_eve_2024 new_year holidays_file 2 3).
  - unfold datetime.is_date, datetime._MAXORDINAL, new_years_eve_2024. lia.
  - lia.
Defined.

Lemma reconcile_any_order_witness :
  get_future_dates_without_issues new_years_eve_2024 new_year holidays_file
    [issue_random; issue_january_2] 2
  = get_future_dates_without_issues new_years_eve_2024 new_year holidays_file
      [issue_january_2; issue_random] 2.
Proof.
  apply (reconcile_any_order new_years_eve_2024 new_year holidays_file).
  apply perm_swap.
Defined.

Lemma reconcile_ignores_other_days_witness :
  get_future_dates_without_issues new_years_eve_2024 new_year holidays_file
    ([issue_january_2] ++ issue_march_4 :: []) 2
  = get_future_dates_without_issues new_years_eve_2024 new_year holidays_file
      ([issue_january_2] ++ []) 2.
Proof.
  apply (reconcile_ignores_other_days new_years_eve_2024 new_year holidays_file
           [issue_january_2] issue_march_4 [] 2 738949).
  - unfold datetime.is_date, datetime._MAXORDINAL, new_years_eve_2024. lia.
  - exact issue_march_4_decodes.
  - left. unfold new_years_eve_2024. lia.
Defined.

Lemma reconcile_again_is_empty_witness :
  get_future_dates_without_issues new_years_eve_2024 new_year holidays_file
    ([issue_january_2; issue_random]
       ++ map (fun d => scrum_issue (d - 739000) d) [739251; 739254]) 2
  = Ok [].
Proof.
  apply (reconcile_again_is_empty new_years_eve_2024 new_year holidays_file
           [issue_january_2; issue_random] 2 [739251; 739254] (fun d => d - 739000)).
  - unfold datetime.is_date, datetime._MAXORDINAL, new_years_eve_2024. lia.
  - exact reconcile_new_year.
Defined.

(** ** Runs, further *)

Section Runs.

Variable today : datetime.date.
Variable PA_HOLIDAYS : datetime.date -> option string.
Variable holidays_txt : list string.

Local Abbreviation run := (main today PA_HOLIDAYS holidays_txt).
Local Abbreviation reconcile :=
  (get_future_dates_without_issues today PA_HOLIDAYS holidays_txt).

Lemma requests_app tr tr' : requests (tr ++ tr') = requests tr ++ requests tr'.
Proof. apply filter_app. Qed.

Lemma same_requests_ret {A} (a : A) : same_requests (ret a) (ret a).
Proof. by intros tr tr' H. Qed.

Lemma same_requests_lift {A} (r : result A) : same_requests (lift r) (lift r).
Proof. by intros tr tr' H. Qed.

Lemma same_requests_bind {A B} (m m' : prog A) (k k' : A -> prog B) :
  same_requests m m' -> (forall a, same_requests (k a) (k' a)) ->
  same_requests (bind m k) (bind m' k').
Proof.
  intros Hm Hk tr tr' Htr. unfold bind. destruct (Hm tr tr' Htr) as [H1 H2].
  destruct (m tr) as [t1 r1], (m' tr') as [t1' r1']. simpl in H1, H2. subst r1'.
  destruct r1 as [a|e]; [by apply Hk|done].
Qed.

Lemma same_requests_for_each {A} (l : list A) (body body' : A -> prog unit) :
  (forall x, same_requests (body x) (body' x)) ->
  same_requests (for_each l body) (for_each l body').
Proof.
  intros Hbody. induction l as [|x l IH]; simpl.
  - apply same_requests_ret.
  - apply same_requests_bind; auto.
Qed.

Lemma same_requests_request_or_log (f f' : list event -> bool) op msg :
  same_requests (request_or_log f op msg) (request_or_log f' op msg).
Proof.
  intros tr tr' Htr. unfold request_or_log.
  destruct (f (tr ++ [op])), (f' (tr' ++ [op])); simpl;
    rewrite ?requests_app, Htr; simpl; rewrite ?app_nil_r; done.
Qed.

Lemma same_requests_main (f f' : list event -> bool) lifespan workdays_ahead issues :
  same_requests (run f lifespan workdays_ahead issues)
                (run f' lifespan workdays_ahead issues).
Proof.
  unfold main, close_old_issues.
  apply same_requests_bind.
  - apply same_requests_bind; [apply same_requests_lift|]. intros ls.
    apply same_requests_for_each. intros issue.
    apply same_requests_bind; [apply same_requests_lift|]. intros [d|].
    + destruct (_ >? _); [apply same_requests_request_or_log|apply same_requests_ret].
    + apply same_requests_ret.
  - intros _. apply same_requests_bind; [apply same_requests_lift|]. intros dates.
    apply same_requests_for_each. intros d. apply same_requests_request_or_log.
Qed.

(** X10: the failures of the tracker change neither what a run requests
    nor how it ends: under any two behaviours of the tracker the runs make
    the same requests in the same order and return or raise the same; only
    the log differs. *)
Theorem run_whatever_the_tracker (f f' : list event -> bool)
    lifespan workdays_ahead issues :
  requests (fst (run f lifespan workdays_ahead issues []))
  = requests (fst (run f' lifespan workdays_ahead issues []))
  /\ snd (run f lifespan workdays_ahead issues [])
     = snd (run f' lifespan workdays_ahead issues []).
Proof. by apply same_requests_main. Qed.

Lemma main_eq (f : list event -> bool) lifespan workdays_ahead issues tr :
  run f lifespan workdays_ahead issues tr =
    match close_old_issues today f issues lifespan tr with
    | (tr1, Ok _) =>
        match reconcile issues workdays_ahead with
        | Ok dates => for_each dates (create_scrum_issue f) tr1
        | Raise e => (tr1, Raise e)
        end
    | (tr1, Raise e) => (tr1, Raise e)
    end.
Proof.
  unfold main, mbind, prog_bind, bind, lift.
  destruct (close_old_issues _ _ _ _ _) as [tr1 [[]|e]]; [|reflexivity].
  by destruct (get_future_dates_without_issues _ _ _ _ _).
Qed.

Lemma create_requests_app tr tr' :
  create_requests (tr ++ tr') = create_requests tr ++ create_requests tr'.
Proof. apply omap_app. Qed.

Lemma create_requests_no_create evs :
  Forall (fun e => ~ is_create e) evs -> create_requests evs = [].
Proof.
  induction 1 as [|e evs He _ IH]; [reflexivity|].
  unfold create_requests in *.
  destruct e; simpl in He |- *; [exact IH|tauto|exact IH].
Qed.

Lemma edit_requests_no_close evs :
  Forall (fun e => ~ is_close e) evs -> edit_requests evs = [].
Proof.
  induction 1 as [|e evs He _ IH]; [reflexivity|].
  unfold edit_requests in *.
  destruct e; simpl in He |- *; [tauto|exact IH|exact IH].
Qed.

Lemma create_loop_spec (f : list event -> bool) dates : forall tr,
  exists evs,
    for_each dates (create_scrum_issue f) tr = (tr ++ evs, Ok tt)
    /\ create_requests evs = map scrum_title dates
    /\ requests evs = map (fun d => CreateIssue (scrum_title d) scrum_body) dates.
Proof.
  induction dates as [|d dates IH]; intros tr.
  - exists []. by rewrite app_nil_r.
  - cbn [for_each]. unfold bind, create_scrum_issue at 1, request_or_log. cbv zeta.
    destruct (f (tr ++ [CreateIssue (scrum_title d) scrum_body])).
    + destruct (IH ((tr ++ [CreateIssue (scrum_title d) scrum_body])
                      ++ [LogError "Creating issue failed:"])) as (evs & -> & Hc & Hr).
      exists ([CreateIssue (scrum_title d) scrum_body; LogError "Creating issue failed:"]
                ++ evs).
      rewrite <- !app_assoc. split; [done|].
      rewrite create_requests_app, requests_app, Hc, Hr. done.
    + destruct (IH (tr ++ [CreateIssue (scrum_title d) scrum_body])) as (evs & -> & Hc & Hr).
      exists ([CreateIssue (scrum_title d) scrum_body] ++ evs).
      rewrite <- !app_assoc. split; [done|].
      rewrite create_requests_app, requests_app, Hc, Hr. done.
Qed.

(** What a run asks to create: nothing, or the titles of the dates of the
    reconciler. *)
Lemma main_create_requests (f : list event -> bool) lifespan workdays_ahead issues :
  exists dates,
    create_requests (fst (run f lifespan workdays_ahead issues []))
    = map scrum_title dates
    /\ (dates = [] \/ reconcile issues workdays_ahead = Ok dates).
Proof.
  rewrite main_eq.
  destruct (close_old_issues_emits today PA_HOLIDAYS f issues lifespan [])
    as (closes & Hc & Hcl).
  destruct (close_old_issues today f issues lifespan []) as [tr1 r]; simpl in Hc; subst tr1.
  pose proof (create_requests_no_create closes Hcl) as Hnone.
  destruct r as [[]|e]; [|exists []; simpl; auto].
  destruct (get_future_dates_without_issues _ _ _ _ _) as [dates|e] eqn:Hrec;
    [|exists []; simpl; auto].
  destruct (create_loop_spec f dates closes) as (evs & -> & Hcr & _).
  exists dates. simpl. rewrite create_requests_app, Hnone, Hcr. auto.
Qed.

Lemma reconcile_elem issues workdays_ahead dates d :
  datetime.is_date today ->
  reconcile issues workdays_ahead = Ok dates ->
  d ∈ dates ->
  datetime.is_date d /\ today <= d
  /\ is_workday PA_HOLIDAYS holidays_txt d = true
  /\ (forall issue, issue ∈ issues -> ~ decodes_to issue d).
Proof.
  intros Htoday (upcoming & Hgen & Hok & ->)%reconcile_Ok Hd.
  apply sorted_spec, elem_of_filter in Hd as [Hfree Hd%elem_of_list_to_set].
  assert (Hup : d ∈ fst (get_upcoming_workdays today PA_HOLIDAYS holidays_txt
                                               workdays_ahead))
    by (by rewrite Hgen).
  split; [by eapply get_upcoming_workdays_is_date|].
  destruct (get_upcoming_workdays_elem today PA_HOLIDAYS holidays_txt
              workdays_ahead d Htoday Hup) as [Hle Hw].
  split; [done|]. split; [done|].
  intros issue Hi Hdec. apply Hfree, elem_of_list_to_set.
  apply list_elem_of_In, in_map_iff. exists issue. split; [|by apply list_elem_of_In].
  unfold decoded. unfold decodes_to in Hdec. by rewrite Hdec.
Qed.

Lemma reconcile_NoDup issues workdays_ahead dates :
  reconcile issues workdays_ahead = Ok dates -> NoDup dates.
Proof.
  intros (upcoming & _ & _ & ->)%reconcile_Ok.
  match goal with |- NoDup (sorted ?s) => destruct (sorted_spec s) as [Hs _] end.
  induction Hs as [|x l Hl IH Hall]; constructor; [|done].
  intros Hx. eapply Forall_forall in Hall; [|exact Hx]. lia.
Qed.

Lemma for_each_app {A} (l1 l2 : list A) (body : A -> prog unit) : forall tr,
  for_each (l1 ++ l2) body tr =
    match for_each l1 body tr with
    | (tr1, Ok _) => for_each l2 body tr1
    | (tr1, Raise e) => (tr1, Raise e)
    end.
Proof.
  induction l1 as [|x l1 IH]; intros tr; [reflexivity|].
  cbn [app for_each]. unfold bind.
  destruct (body x tr) as [t [[]|e]]; [apply IH|reflexivity].
Qed.

Lemma for_each_cons_skip {A} (x : A) (l : list A) (body : A -> prog unit) tr :
  body x tr = (tr, Ok tt) -> for_each (x :: l) body tr = for_each l body tr.
Proof. intros H. cbn [for_each]. unfold bind. by rewrite H. Qed.

Lemma close_old_issues_eq (f : list event -> bool) issues lifespan tr :
  close_old_issues today f issues lifespan tr =
    match datetime.timedelta lifespan with
    | Ok lifespan =>
        for_each issues (fun issue =>
          date ← lift (issue_title_to_date (title issue));
          match date with
          | None => ret tt
          | Some date =>
              if today - date >? lifespan
              then request_or_log f (EditClosed issue) "Closing issue failed:"
              else ret tt
          end) tr
    | Raise e => (tr, Raise e)
    end.
Proof.
  unfold close_old_issues, get_today, mbind at 1, prog_bind at 1, bind at 1, lift at 1.
  by destruct (datetime.timedelta lifespan).
Qed.

Lemma close_old_issues_skip_undated (f : list event -> bool)
    before issue after lifespan tr :
  issue_title_to_date (title issue) = Ok None ->
  close_old_issues today f (before ++ issue :: after) lifespan tr
  = close_old_issues today f (before ++ after) lifespan tr.
Proof.
  intros Hnone. rewrite !close_old_issues_eq.
  destruct (datetime.timedelta lifespan) as [ls|e]; [|reflexivity].
  rewrite !for_each_app.
  destruct (for_each before _ tr) as [tr1 [[]|e]]; [|reflexivity].
  apply for_each_cons_skip.
  unfold mbind, prog_bind, bind, lift. by rewrite Hnone.
Qed.

(** X8: an issue whose title has no date prefix is ignored, wherever it
    stands in the list: the closer, the reconciler and the whole run do
    with it what they do without it. *)
Theorem undated_issues_are_ignored (f : list event -> bool)
    before issue after lifespan workdays_ahead tr :
  issue_title_to_date (title issue) = Ok None ->
  close_old_issues today f (before ++ issue :: after) lifespan tr
  = close_old_issues today f (before ++ after) lifespan tr
  /\ reconcile (before ++ issue :: after) workdays_ahead
     = reconcile (before ++ after) workdays_ahead
  /\ run f lifespan workdays_ahead (before ++ issue :: after) tr
     = run f lifespan workdays_ahead (before ++ after) tr.
Proof.
  intros Hnone.
  pose proof (close_old_issues_skip_undated f before issue after lifespan tr Hnone)
    as Hclose.
  assert (Hrec : reconcile (before ++ issue :: after) workdays_ahead
                 = reconcile (before ++ after) workdays_ahead).
  { apply reconcile_same_dates.
    - rewrite !forallb_app. simpl. unfold well_titledb at 2. by rewrite Hnone.
    - intros d. rewrite !map_app. simpl map. unfold decoded at 2. rewrite Hnone.
      rewrite !elem_of_app, elem_of_cons. split.
      + intros [?|[?|?]]; [by left|discriminate|by right].
      + intros [?|?]; [by left|right; by right]. }
  split; [exact Hclose|]. split; [exact Hrec|].
  by rewrite !main_eq, Hclose, Hrec.
Qed.

(** X13: one corrupt title anywhere in the list stops the whole run: it
    ends in the [ValueError] and asks for no issue to be created. *)
Theorem corrupt_title_blocks_creation (f : list event -> bool)
    lifespan workdays_ahead issues issue :
  -999999999 <= lifespan <= 999999999 ->
  issue ∈ issues ->
  issue_title_to_date (title issue) = Raise ValueError ->
  snd (run f lifespan workdays_ahead issues []) = Raise ValueError
  /\ create_requests (fst (run f lifespan workdays_ahead issues [])) = [].
Proof.
  intros Hls Hin Hbad. split; [by eapply corrupt_title_ends_run|].
  destruct (main_create_requests f lifespan workdays_ahead issues)
    as (dates & -> & [->|Hrec]); [reflexivity|].
  apply reconcile_Ok in Hrec as (_ & _ & Hok & _).
  rewrite forallb_forall in Hok. apply list_elem_of_In, Hok in Hin.
  unfold well_titledb in Hin. rewrite Hbad in Hin. discriminate.
Qed.

(** X14: a lifespan beyond what a [timedelta] holds ends the run in an
    [OverflowError] before any request. *)
Theorem lifespan_out_of_range (f : list event -> bool)
    lifespan workdays_ahead issues tr :
  lifespan < -999999999 \/ 999999999 < lifespan ->
  run f lifespan workdays_ahead issues tr = (tr, Raise OverflowError).
Proof.
  intros Hls. rewrite main_eq.
  rewrite close_old_issues_eq. unfold datetime.timedelta.
  replace ((-999999999 <=? lifespan) && (lifespan <=? 999999999)) with false;
    [reflexivity|].
  symmetry. apply andb_false_iff.
  destruct Hls; [left|right]; apply Z.leb_gt; lia.
Qed.

Lemma emits_weaken {A} (P Q : event -> Prop) (m : prog A) :
  (forall e, P e -> Q e) -> emits P m -> emits Q m.
Proof.
  intros HPQ Hm tr. destruct (Hm tr) as (evs & Heq & Hall).
  exists evs. split; [done|]. eapply Forall_impl; eauto.
Qed.

Lemma emits_for_each_elem {A} P (l : list A) (body : A -> prog unit) :
  (forall x, x ∈ l -> emits P (body x)) -> emits P (for_each l body).
Proof.
  induction l as [|x l IH]; intros Hbody; simpl.
  - apply emits_ret.
  - apply emits_bind; [apply Hbody; by left|].
    intros _. apply IH. intros y Hy. apply Hbody. by right.
Qed.

Lemma close_old_issues_closes_old (f : list event -> bool) lifespan issues :
  emits (closes_old_of today lifespan issues)
        (close_old_issues today f issues lifespan).
Proof.
  intros tr. rewrite close_old_issues_eq. unfold datetime.timedelta.
  destruct (_ && _); [|exact (emits_lift _ (Raise OverflowError) tr)].
  revert tr. apply emits_for_each_elem. intros issue Hin tr.
  unfold mbind, prog_bind, bind, lift.
  destruct (issue_title_to_date (title issue)) as [[d|]|e] eqn:Hd;
    [|exact (emits_ret _ tt tr)|exact (emits_lift _ (Raise e) tr)].
  destruct (today - d >? lifespan) eqn:Hold; [|exact (emits_ret _ tt tr)].
  apply emits_request_or_log; simpl; [|done].
  split; [done|]. unfold is_old. by rewrite Hd.
Qed.

Lemma main_closes_old (f : list event -> bool) lifespan workdays_ahead issues :
  emits (closes_old_of today lifespan issues) (run f lifespan workdays_ahead issues).
Proof.
  unfold main. apply emits_bind; [apply close_old_issues_closes_old|].
  intros _. apply emits_bind; [apply emits_lift|]. intros dates.
  eapply emits_weaken; [|apply (create_scrum_issues_emits today PA_HOLIDAYS)].
  intros [] He; simpl in *; tauto.
Qed.

(** X15: a run asks to close issues of the list only, and only those whose
    title decodes to a date more than [lifespan] days before [today]; with
    a lifespan that is not negative these dates are before [today], so
    that no issue of an upcoming day is closed. *)
Theorem closed_issues_are_old (f : list event -> bool)
    lifespan workdays_ahead issues issue :
  issue ∈ edit_requests (fst (run f lifespan workdays_ahead issues [])) ->
  issue ∈ issues
  /\ exists d, decodes_to issue d /\ today - d > lifespan
               /\ (0 <= lifespan -> d < today).
Proof.
  destruct (main_closes_old f lifespan workdays_ahead issues []) as (evs & -> & Hall).
  simpl. unfold edit_requests.
  intros (e & He & Hissue)%list_elem_of_omap.
  eapply Forall_forall in Hall; [|exact He].
  destruct e as [i| |]; try discriminate. injection Hissue as ->.
  destruct Hall as [Hin Hold]. split; [exact Hin|].
  unfold is_old in Hold. unfold decodes_to.
  destruct (issue_title_to_date (title issue)) as [[d|]|]; try discriminate.
  apply Z.gtb_gt in Hold. exists d. split; [done|]. split; lia.
Qed.

Lemma requests_of_closes evs :
  Forall (fun e => ~ is_create e) evs ->
  requests evs = map EditClosed (edit_requests evs).
Proof.
  induction 1 as [|e evs He _ IH]; [reflexivity|].
  unfold requests, edit_requests in *.
  destruct e; simpl in He.
  - rewrite filter_cons_True by done. simpl. by rewrite IH.
  - tauto.
  - rewrite filter_cons_False by done. exact IH.
Qed.

(** X16: a whole run, when no title is corrupt, the lifespan is one that a
    [timedelta] holds and the generator runs to its end: it returns, and
    its requests are the closing of the old issues in the order of the
    list, followed by the creation of one issue for each date of the
    reconciler in ascending order. *)
Theorem run_spec (f : list event -> bool) lifespan workdays_ahead issues upcoming :
  (forall issue, issue ∈ issues -> well_titled issue) ->
  -999999999 <= lifespan <= 999999999 ->
  get_upcoming_workdays today PA_HOLIDAYS holidays_txt workdays_ahead
  = (upcoming, None) ->
  exists dates,
    reconcile issues workdays_ahead = Ok dates
    /\ snd (run f lifespan workdays_ahead issues []) = Ok tt
    /\ requests (fst (run f lifespan workdays_ahead issues []))
       = map EditClosed (filter (fun issue => is_old today lifespan issue = true) issues)
         ++ map (fun d => CreateIssue (scrum_title d) scrum_body) dates.
Proof.
  intros Htitles Hls Hgen.
  destruct (titles_to_dates_well_titled issues Htitles) as [ds Hds].
  assert (Hrec : exists dates, reconcile issues workdays_ahead = Ok dates).
  { unfold get_future_dates_without_issues, consume. rewrite Hgen, Hds. simpl. eauto. }
  destruct Hrec as [dates Hrec]. exists dates. split; [exact Hrec|].
  rewrite main_eq, Hrec.
  destruct (close_loop_spec today f lifespan issues [] Htitles) as (closes & Hloop & Hreq).
  assert (Hclose : close_old_issues today f issues lifespan [] = (closes, Ok tt)).
  { rewrite close_old_issues_eq. unfold datetime.timedelta.
    replace ((-999999999 <=? lifespan) && (lifespan <=? 999999999)) with true
      by (symmetry; apply andb_true_intro; split; apply Z.leb_le; lia).
    exact Hloop. }
  destruct (close_old_issues_emits today PA_HOLIDAYS f issues lifespan [])
    as (closes' & Hc & Hcl).
  rewrite Hclose in Hc |- *. simpl in Hc. subst closes'.
  destruct (create_loop_spec f dates closes) as (creates & -> & _ & Hcr).
  split; [reflexivity|]. simpl.
  by rewrite requests_app, Hcr, (requests_of_closes closes Hcl), Hreq.
Qed.

(** X11: a run never asks for an issue that exists or for a day on which
    no scrum is held: every title it asks to create is the title of a
    workday, today or later, that the title of no listed issue decodes to;
    and it asks for no title twice. *)
Theorem created_issues_are_new (f : list event -> bool)
    lifespan workdays_ahead issues t :
  datetime.is_date today ->
  t ∈ create_requests (fst (run f lifespan workdays_ahead issues [])) ->
  NoDup (create_requests (fst (run f lifespan workdays_ahead issues [])))
  /\ exists d,
       t = scrum_title d
       /\ issue_title_to_date t = Ok (Some d)
       /\ today <= d
       /\ is_workday PA_HOLIDAYS holidays_txt d = true
       /\ (forall issue, issue ∈ issues -> ~ decodes_to issue d).
Proof.
  intros Htoday.
  destruct (main_create_requests f lifespan workdays_ahead issues)
    as (dates & -> & [->|Hrec]); [by intros ?%elem_of_nil|].
  intros (d & <- & Hd%list_elem_of_In)%list_elem_of_In%in_map_iff.
  split.
  - change (map scrum_title dates) with (scrum_title <$> dates).
    apply NoDup_fmap_2_strong; [|by eapply reconcile_NoDup].
    intros d1 d2 Hd1 Hd2 Heq.
    destruct (reconcile_elem issues workdays_ahead dates d1 Htoday Hrec Hd1) as [I1 _].
    destruct (reconcile_elem issues workdays_ahead dates d2 Htoday Hrec Hd2) as [I2 _].
    pose proof (scrum_title_decodes d1 I1) as D1.
    pose proof (scrum_title_decodes d2 I2) as D2. congruence.
  - destruct (reconcile_elem issues workdays_ahead dates d Htoday Hrec Hd)
      as (Hdate & Hle & Hw & Hnew).
    exists d. split; [done|]. split; [by apply scrum_title_decodes|]. done.
Qed.

(** X12: a run asks for at most [workdays_ahead + 1] issues. *)
Theorem created_issues_are_few (f : list event -> bool)
    lifespan workdays_ahead issues :
  datetime.is_date today ->
  Z.of_nat (length (create_requests (fst (run f lifespan workdays_ahead issues []))))
  <= Z.max 0 workdays_ahead + 1.
Proof.
  intros Htoday.
  destruct (main_create_requests f lifespan workdays_ahead issues)
    as (dates & -> & [->|Hrec]); [simpl; lia|].
  rewrite length_map.
  pose proof (reconcile_NoDup issues workdays_ahead dates Hrec) as Hnodup.
  destruct (reconcile_Ok today PA_HOLIDAYS holidays_txt issues workdays_ahead dates Hrec)
    as (upcoming & Hgen & _ & Hdates).
  assert (Hsub : (length dates <= length upcoming)%nat).
  { apply submseteq_length, NoDup_submseteq; [done|].
    intros d Hd. rewrite Hdates in Hd.
    by apply sorted_spec, elem_of_filter in Hd as [_ Hd%elem_of_list_to_set]. }
  pose proof (get_upcoming_workdays_length today PA_HOLIDAYS holidays_txt
                workdays_ahead Htoday) as Hlen.
  rewrite Hgen in Hlen. simpl in Hlen. lia.
Qed.

End Runs.

Lemma created_issues_are_new_witness :
  exists d,
    "2024-03-13: e-scrum for Wednesday, March 13, 2024" = scrum_title d
    /\ march_12_2024 <= d.
Proof.
  destruct (created_issues_are_new march_12_2024 no_holiday [] never_fails 7 2
              [issue_march_4; issue_random]
              "2024-03-13: e-scrum for Wednesday, March 13, 2024")
    as [_ (d & Ht & _ & Hle & _)].
  - unfold datetime.is_date, datetime._MAXORDINAL, march_12_2024. lia.
  - rewrite run_march_12. right. left.
  - exists d. split; [exact Ht|exact Hle].
Defined.

Lemma created_issues_are_few_witness :
  Z.of_nat (length (create_requests
    (fst (main march_12_2024 no_holiday [] never_fails 7 2
               [issue_march_4; issue_random] []))))
  <= Z.max 0 2 + 1.
Proof.
  apply (created_issues_are_few march_12_2024 no_holiday [] never_fails 7 2
           [issue_march_4; issue_random]).
  unfold datetime.is_date, datetime._MAXORDINAL, march_12_2024. lia.
Defined.

Lemma run_spec_witness :
  exists dates,
    get_future_dates_without_issues march_12_2024 no_holiday []
      [issue_march_4; issue_random] 2 = Ok dates
    /\ snd (main march_12_2024 no_holiday [] never_fails 7 2
                 [issue_march_4; issue_random] []) = Ok tt.
Proof.
  destruct (run_spec march_12_2024 no_holiday [] never_fails 7 2
              [issue_march_4; issue_random] [738957; 738958; 738959])
    as (dates & Hrec & Hend & _).
  - intros issue Hi.
    repeat (apply elem_of_cons in Hi as [->|Hi]); [| |by apply elem_of_nil in Hi].
    + left. exists 738949. exact issue_march_4_decodes.
    + exact issue_random_well_titled.
  - lia.
  - vm_compute. reflexivity.
  - exists dates. split; [exact Hrec|exact Hend].
Defined.

Lemma closed_issues_are_old_witness :
  issue_march_4 ∈ [issue_march_4; issue_random].
Proof.
  apply (closed_issues_are_old march_12_2024 no_holiday [] never_fails 7 2
           [issue_march_4; issue_random] issue_march_4).
  rewrite run_march_12. left.
Defined.

Lemma undated_issues_are_ignored_witness :
  main march_12_2024 no_holiday [] never_fails 7 2
       ([issue_march_4] ++ issue_random :: []) []
  = main march_12_2024 no_holiday [] never_fails 7 2 ([issue_march_4] ++ []) [].
Proof.
  apply (undated_issues_are_ignored march_12_2024 no_holiday [] never_fails
           [issue_march_4] issue_random [] 7 2 []).
  reflexivity.
Defined.

Lemma corrupt_title_blocks_creation_witness :
  create_requests (fst (main march_12_2024 no_holiday [] never_fails 7 2
                             [issue_march_4; issue_corrupt] [])) = [].
Proof.
  apply (corrupt_title_blocks_creation march_12_2024 no_holiday [] never_fails 7 2
           [issue_march_4; issue_corrupt] issue_corrupt).
  - lia.
  - right. left.
  - reflexivity.
Defined.

Lemma lifespan_out_of_range_witness :
  main march_12_2024 no_holiday [] never_fails 1000000000 2 [issue_march_4] []
  = ([], Raise OverflowError).
Proof.
  apply (lifespan_out_of_range march_12_2024 no_holiday [] never_fails
           1000000000 2 [issue_march_4] []).
  right. lia.
Defined.
